(** * teuthology/task/rbd.py: provisioning and teardown of rbd test resources

    A shallow embedding of the task module [teuthology.task.rbd] and the
    properties its specification states about it.

    - Python values, dictionaries and configurations are inductive data;
      a dictionary is an association list in iteration order.
    - Every context manager of the module (a generator with one [yield])
      is a [step]: the code before the [yield] is its [enter], the
      [finally] block after it is its [exit].
    - Remote commands run against a world holding a clock and the log of
      the commands handed to [remote.run]; the exit status of a simple
      command is given by an oracle, the shell operators the module
      writes into its command lines are interpreted. *)

From Stdlib Require Import List String Ascii ZArith Lia Bool Arith.
From Stdlib Require Import DecimalString.
Import ListNotations.
Open Scope string_scope.
Open Scope list_scope.

Set Implicit Arguments.
Set Warnings "-register-all".

(* ================================================================== *)
(** * Python values and dictionaries *)

Definition role := string.
Definition remote := string.

(** The values a YAML configuration puts into a property map. *)
Inductive value : Type :=
| VNone
| VStr (s : string)
| VInt (z : Z).

Module Py.

(** [str(v)], also what ['{x}'.format(x=v)] inserts. *)
Definition str (v : value) : string :=
  match v with
  | VNone => "None"
  | VStr s => s
  | VInt z => NilZero.string_of_int (Z.to_int z)
  end.

(** Truth value of [v] in a condition. *)
Definition truthy (v : value) : bool :=
  match v with
  | VNone => false
  | VStr s => negb (String.eqb s EmptyString)
  | VInt z => negb (Z.eqb z 0)
  end.

(** [s.startswith(p)] *)
Definition startswith (p s : string) : bool := String.prefix p s.

(** [s[n:]] *)
Fixpoint drop (n : nat) (s : string) : string :=
  match n, s with
  | O, _ => s
  | S _, EmptyString => EmptyString
  | S k, String _ t => drop k t
  end.

(** [s.rsplit('.')[-1]]: what follows the last dot ([s] itself when it
    holds none). *)
Fixpoint after_last_dot (s : string) : string :=
  match s with
  | EmptyString => EmptyString
  | String c t =>
      if Ascii.eqb c "."%char then after_last_dot t
      else if existsb (Ascii.eqb "."%char) (list_ascii_of_string t)
           then after_last_dot t
           else s
  end.

(** [s.rstrip('\n')] *)
Fixpoint rstrip_nl (s : string) : string :=
  match s with
  | EmptyString => EmptyString
  | String c t =>
      match rstrip_nl t with
      | EmptyString =>
          if Ascii.eqb c "010"%char then EmptyString
          else String c EmptyString
      | t' => String c t'
      end
  end.

(** A dictionary with string keys, in iteration order. *)
Definition dict (V : Type) := list (string * V).

Fixpoint lookup {V} (d : dict V) (k : string) : option V :=
  match d with
  | [] => None
  | (k', v) :: rest => if String.eqb k' k then Some v else lookup rest k
  end.

(** [k in d] *)
Definition mem {V} (d : dict V) (k : string) : bool :=
  match lookup d k with Some _ => true | None => false end.

(** [d.get(k, default)] *)
Definition get {V} (d : dict V) (k : string) (default : V) : V :=
  match lookup d k with Some v => v | None => default end.

(** [d[k] = v] *)
Fixpoint set {V} (d : dict V) (k : string) (v : V) : dict V :=
  match d with
  | [] => [(k, v)]
  | (k', v') :: rest =>
      if String.eqb k' k then (k', v) :: rest else (k', v') :: set rest k v
  end.

Definition keys {V} (d : dict V) : list string := map fst d.

End Py.

(** The property map of one target. *)
Definition properties := Py.dict value.

(** A task configuration: [None], a list of roles, or a dictionary from
    roles to [X] (property maps or image names, by the task). *)
Inductive configuration (X : Type) : Type :=
| CNone
| CList (roles : list role)
| CDict (d : Py.dict X).
Arguments CNone {X}.
Arguments CList {X} roles.
Arguments CDict {X} d.

(** [isinstance(config, dict) or isinstance(config, list)] *)
Definition is_list_or_dict {X} (c : configuration X) : bool :=
  match c with CNone => false | _ => true end.

(* ================================================================== *)
(** * Commands *)

(** One element of the [args] list of [remote.run]: a value (quoted for
    the shell) or [run.Raw] text handed to the shell as it is. *)
Inductive arg : Type :=
| Arg (v : value)
| Raw (s : string).

(** The shell command an [args] list spells.  The module only writes
    simple commands, [&&], [||], [while ... ; do ... ; done] and an
    output redirection. *)
Inductive sh : Type :=
| Simple (argv : list value)
| AndIf (a b : sh)
| OrIf (a b : sh)
| While (c b : sh)
| RedirectTo (a : sh) (file : string).

(** The [args] list of a command, token by token as the module writes
    it. *)
Fixpoint tokens (c : sh) : list arg :=
  match c with
  | Simple argv => map Arg argv
  | AndIf a b => tokens a ++ Raw "&&" :: tokens b
  | OrIf a b => tokens a ++ Raw "||" :: tokens b
  | While c b =>
      Arg (VStr "while") :: tokens c
        ++ Raw ";" :: Arg (VStr "do") :: tokens b
        ++ [Raw ";"; Arg (VStr "done")]
  | RedirectTo a file => tokens a ++ [Raw ">"; Arg (VStr file)]
  end.

(** String literals of a command line. *)
Definition lits (l : list string) : list value := map VStr l.

(* ================================================================== *)
(** * Errors and effects *)

(** The exceptions the module can raise, with the names the
    specification gives to the failures of the orchestration. *)
Inductive exn : Type :=
| AssertionError (msg : string)
| ValueError
| TypeError
| RuntimeError (msg : string)
| RemoteCommandError (r : remote) (args : list arg)
| DeviceTimeoutError
| TeardownError (errs : list exn).

(** The outcome of an action on a world [W]: it does not return, it
    raises, or it returns a value; the world is kept in both of the
    latter. *)
Inductive res (W A : Type) : Type :=
| Diverge
| Raise (e : exn) (w : W)
| Ret (a : A) (w : W).
Arguments Diverge {W A}.
Arguments Raise {W A} e w.
Arguments Ret {W A} a w.

Definition M (W A : Type) : Type := W -> res W A.

Definition ret {W A} (a : A) : M W A := fun w => Ret a w.
Definition raise {W A} (e : exn) : M W A := fun w => Raise e w.
Definition bind {W A B} (m : M W A) (k : A -> M W B) : M W B :=
  fun w =>
    match m w with
    | Diverge => Diverge
    | Raise e w' => Raise e w'
    | Ret a w' => k a w'
    end.

Notation "x <- m ;; k" := (bind m (fun x => k))
  (at level 61, m at next level, right associativity).
Notation "m ;;; k" := (bind m (fun _ => k))
  (at level 61, right associativity).

(** [assert b, msg] *)
Definition assert {W} (b : bool) (msg : string) : M W unit :=
  if b then ret tt else raise (AssertionError msg).

(** [for x in xs: body(x)] *)
Fixpoint for_each {W X} (xs : list X) (body : X -> M W unit) : M W unit :=
  match xs with
  | [] => ret tt
  | x :: rest => body x ;;; for_each rest body
  end.

(** The world an action observes once it has stopped. *)
Definition world_of {W A} (r : res W A) : option W :=
  match r with
  | Diverge => None
  | Raise _ w => Some w
  | Ret _ w => Some w
  end.

Definition returned {W A} (r : res W A) : bool :=
  match r with Ret _ _ => true | _ => false end.

Definition raised {W A} (r : res W A) : option exn :=
  match r with Raise e _ => Some e | _ => None end.

(** A context manager: what runs before its [yield] and what its
    [finally] block runs. *)
Record step (W : Type) : Type := Step {
  enter : M W unit;
  exit : M W unit
}.

(* ================================================================== *)
(** * The remote executor *)

(** What the module sees of the hosts: a clock, advanced by every simple
    command a host runs, and the [args] of every [remote.run] call in
    call order. *)
Record world : Type := World {
  clock : nat;
  log : list (remote * list arg)
}.

(** Everything outside the module a run depends on, reached through
    [ctx]:
    - [cluster] is [ctx.cluster.remotes], every remote with the roles it
      holds;
    - [status] tells whether a simple command exits with status 0 when a
      remote runs it at a given time, [output] what it prints;
    - [fuel] is how many times a [while] loop may probe its condition
      before the model gives up on it;
    - [write_secret_file] is [teuthology.write_secret_file(remote, role,
      filename)], defined outside this module. *)
Record context : Type := Context {
  cluster : list (remote * list role);
  status : nat -> remote -> list value -> bool;
  output : nat -> remote -> list value -> string;
  fuel : nat;
  write_secret_file : remote -> role -> string -> M world unit
}.

Section Executor.

Variable ctx : context.

(** The shell builtin [true], whose status is 0 on every host. *)
Definition is_true_builtin (argv : list value) : bool :=
  match argv with
  | [VStr s] => String.eqb s "true"
  | _ => false
  end.

(** Whether the simple command [argv] exits with status 0 when [r] runs
    it at time [t]. *)
Definition simple_status (t : nat) (r : remote) (argv : list value) : bool :=
  if is_true_builtin argv then true else status ctx t r argv.

(** [while cond ; do body ; done] from time [t]: at most [n] probes of
    the condition; [last] is the status of the last run of the body.
    [None] when the loop is still running after [n] probes. *)
Fixpoint while_loop (cond body : nat -> option (nat * bool))
    (n t : nat) (last : bool) : option (nat * bool) :=
  match n with
  | O => None
  | S n' =>
      match cond t with
      | Some (t1, true) =>
          match body t1 with
          | Some (t2, st) => while_loop cond body n' t2 st
          | None => None
          end
      | Some (t1, false) => Some (t1, last)
      | None => None
      end
  end.

(** The clock after the command and whether its status is 0; [None]
    when a loop is still running once the fuel is spent.  A [while]
    loop returns the status of the last command of its body, 0 when
    the body never ran. *)
Fixpoint sh_eval (r : remote) (c : sh) (t : nat) : option (nat * bool) :=
  match c with
  | Simple argv => Some (S t, simple_status t r argv)
  | AndIf a b =>
      match sh_eval r a t with
      | Some (t1, true) => sh_eval r b t1
      | o => o
      end
  | OrIf a b =>
      match sh_eval r a t with
      | Some (t1, false) => sh_eval r b t1
      | o => o
      end
  | While c b => while_loop (sh_eval r c) (sh_eval r b) (fuel ctx) t true
  | RedirectTo a _ => sh_eval r a t
  end.

Definition logged (r : remote) (c : sh) (w : world) : list (remote * list arg) :=
  log w ++ [(r, tokens c)].

(** Modelled from the spec: [remote.run(args=...)] of the orchestra
    package, the Remote Executor capability.  The call is logged; it
    waits for the command and raises [RemoteCommandError] when its
    status is not 0. *)
Definition remote_run (r : remote) (c : sh) : M world unit :=
  fun w =>
    match sh_eval r c (clock w) with
    | None => Diverge
    | Some (t, true) => Ret tt (World t (logged r c w))
    | Some (t, false) =>
        Raise (RemoteCommandError r (tokens c)) (World t (logged r c w))
    end.

(** Modelled from the spec: [remote.run(args=..., wait=False)], the
    executor told not to wait for completion.  It starts the command and
    returns at once; the status is never looked at. *)
Definition remote_run_nowait (r : remote) (c : sh) : M world unit :=
  fun w => Ret tt (World (S (clock w)) (logged r c w)).

(** Modelled from the spec: [remote.run(args=..., stdout=fp)], the
    executor capturing output.  As [remote_run], returning what the
    command printed. *)
Definition remote_run_stdout (r : remote) (argv : list value) : M world string :=
  fun w =>
    let out := output ctx (clock w) r argv in
    match remote_run r (Simple argv) w with
    | Diverge => Diverge
    | Raise e w' => Raise e w'
    | Ret _ w' => Ret out w'
    end.

End Executor.

(* ================================================================== *)
(** * The cluster *)

Definition has_role (rl : role) (roles : list role) : bool :=
  existsb (String.eqb rl) roles.

(** Modelled from the spec: [ctx.cluster.only(role).remotes.keys()] of
    the orchestra package, the hosts the Topology Resolver gives for a
    role, in cluster order. *)
Definition only (ctx : context) (rl : role) : list remote :=
  map fst (filter (fun hr => has_role rl (snd hr)) (cluster ctx)).

(** [(remote,) = ctx.cluster.only(role).remotes.keys()] *)
Definition the_remote (ctx : context) (rl : role) : M world remote :=
  match only ctx rl with
  | [r] => ret r
  | _ => raise ValueError
  end.

(** [config.items()] for a dictionary, [[(role, None) for role in
    config]] for a list. *)
Definition items_of {X} (none : X) (config : configuration X) : list (role * X) :=
  match config with
  | CDict d => d
  | CList roles => map (fun rl => (rl, none)) roles
  | CNone => []
  end.

(** [if properties is None: properties = {}] *)
Definition or_empty (p : option properties) : properties :=
  match p with
  | None => []
  | Some d => d
  end.

(** ** create_image *)

Definition default_image_name (rl : role) : string := "testimage." ++ rl.

Definition image_name_of (rl : role) (p : option properties) : value :=
  Py.get (or_empty p) "image_name" (VStr (default_image_name rl)).
Definition image_size_of (p : option properties) : value :=
  Py.get (or_empty p) "image_size" (VInt 10240).
Definition image_format_of (p : option properties) : value :=
  Py.get (or_empty p) "image_format" (VInt 1).

Definition rbd_create (name size fmt : value) : sh :=
  Simple (lits [ "LD_LIBRARY_PATH=/tmp/cephtest/binary/usr/local/lib";
                 "/tmp/cephtest/enable-coredump";
                 "/tmp/cephtest/binary/usr/local/bin/ceph-coverage";
                 "/tmp/cephtest/archive/coverage";
                 "/tmp/cephtest/binary/usr/local/bin/rbd";
                 "-c"; "/tmp/cephtest/ceph.conf";
                 "-p"; "rbd";
                 "create";
                 "--format" ]
          ++ [ VStr (Py.str fmt); VStr "--size"; VStr (Py.str size); name ]).

Definition rbd_rm (name : value) : sh :=
  Simple (lits [ "LD_LIBRARY_PATH=/tmp/cephtest/binary/usr/local/lib";
                 "/tmp/cephtest/enable-coredump";
                 "/tmp/cephtest/binary/usr/local/bin/ceph-coverage";
                 "/tmp/cephtest/archive/coverage";
                 "/tmp/cephtest/binary/usr/local/bin/rbd";
                 "-c"; "/tmp/cephtest/ceph.conf";
                 "-p"; "rbd";
                 "rm" ]
          ++ [ name ]).

Definition create_one (ctx : context) (rp : role * option properties) : M world unit :=
  let name := image_name_of (fst rp) (snd rp) in
  let size := image_size_of (snd rp) in
  let fmt := image_format_of (snd rp) in
  r <- the_remote ctx (fst rp) ;;
  remote_run ctx r (rbd_create name size fmt).

Definition delete_one (ctx : context) (rp : role * option properties) : M world unit :=
  let name := image_name_of (fst rp) (snd rp) in
  r <- the_remote ctx (fst rp) ;;
  remote_run ctx r (rbd_rm name).

Definition create_image (ctx : context) (config : configuration (option properties)) : step world :=
  let images := items_of None config in
  {| enter :=
       assert (is_list_or_dict config)
         "task create_image only supports a list or dictionary for configuration" ;;;
       for_each images (create_one ctx);
     exit := for_each images (delete_one ctx) |}.

(** ** modprobe *)

(** [for role in config]: the elements of a list, the keys of a
    dictionary; [None] is not iterable. *)
Definition iterate {X} (config : configuration X) : M world (list role) :=
  match config with
  | CList roles => ret roles
  | CDict d => ret (Py.keys d)
  | CNone => raise TypeError
  end.

Definition modprobe_load : sh := Simple (lits [ "sudo"; "modprobe"; "rbd" ]).

(** The [|| true] forces errors of the unload to be ignored. *)
Definition modprobe_unload : sh :=
  OrIf (Simple (lits [ "sudo"; "modprobe"; "-r"; "rbd" ]))
       (Simple (lits [ "true" ])).

Definition modprobe {X} (ctx : context) (config : configuration X) : step world :=
  {| enter :=
       roles <- iterate config ;;
       for_each roles (fun rl =>
         r <- the_remote ctx rl ;;
         remote_run ctx r modprobe_load);
     exit :=
       roles <- iterate config ;;
       for_each roles (fun rl =>
         r <- the_remote ctx rl ;;
         remote_run ctx r modprobe_unload) |}.

(** ** dev_create *)

Definition dq : string := String "034"%char EmptyString.

(** The udev rule that names a mapped device [/dev/rbd/pool/image]. *)
Definition udev_rule : string :=
  "KERNEL==" ++ dq ++ "rbd[0-9]*" ++ dq
    ++ ", PROGRAM=" ++ dq ++ "/tmp/cephtest/binary/usr/local/bin/ceph-rbdnamer %n" ++ dq
    ++ ", SYMLINK+=" ++ dq ++ "rbd/%c{1}/%c{2}" ++ dq.

Definition write_udev_rule : sh :=
  RedirectTo (Simple (lits [ "echo"; udev_rule ])) "/tmp/cephtest/51-rbd.rules".

Definition install_udev_rule : sh :=
  Simple (lits [ "sudo"; "mv"; "/tmp/cephtest/51-rbd.rules"; "/etc/udev/rules.d/" ]).

(** [/dev/rbd/rbd/{image}] *)
Definition dev_path (image : value) : string := "/dev/rbd/rbd/" ++ Py.str image.

Definition rbd_map_cmd (rl : role) (secretfile : string) (image : value) : sh :=
  Simple (lits [ "sudo";
                 "LD_LIBRARY_PATH=/tmp/cephtest/binary/usr/local/lib";
                 "/tmp/cephtest/enable-coredump";
                 "/tmp/cephtest/binary/usr/local/bin/ceph-coverage";
                 "/tmp/cephtest/archive/coverage";
                 "/tmp/cephtest/binary/usr/local/bin/rbd";
                 "-c"; "/tmp/cephtest/ceph.conf";
                 "--user"; Py.after_last_dot rl;
                 "--secret"; secretfile;
                 "-p"; "rbd";
                 "map" ]
          ++ [ image ]).

(** The probes of the two waits and the pause between two probes. *)
Definition symlink_missing (image : value) : sh :=
  Simple (lits [ "test"; "!"; "-e"; dev_path image ]).
Definition symlink_present (image : value) : sh :=
  Simple (lits [ "test"; "-e"; dev_path image ]).
Definition sleep_1 : sh := Simple (lits [ "sleep"; "1" ]).

(** Maps the image, then waits for the symlink to be created by udev. *)
Definition rbd_map (rl : role) (secretfile : string) (image : value) : sh :=
  AndIf (rbd_map_cmd rl secretfile image)
        (While (symlink_missing image) sleep_1).

Definition rbd_unmap_cmd (image : value) : sh :=
  Simple (lits [ "sudo";
                 "LD_LIBRARY_PATH=/tmp/cephtest/binary/usr/local/lib";
                 "/tmp/cephtest/enable-coredump";
                 "/tmp/cephtest/binary/usr/local/bin/ceph-coverage";
                 "/tmp/cephtest/archive/coverage";
                 "/tmp/cephtest/binary/usr/local/bin/rbd";
                 "-c"; "/tmp/cephtest/ceph.conf";
                 "-p"; "rbd";
                 "unmap";
                 dev_path image ]).

(** Unmaps the device, then waits for the symlink to be deleted by
    udev. *)
Definition rbd_unmap (image : value) : sh :=
  AndIf (rbd_unmap_cmd image)
        (While (symlink_present image) sleep_1).

Definition remove_udev_rule : sh :=
  Simple (lits [ "sudo"; "rm"; "-f"; "/etc/udev/rules.d/51-rbd.rules" ]).

(** [if image is None: image = default_image_name(role)] *)
Definition image_or_default (rl : role) (image : value) : value :=
  match image with
  | VNone => VStr (default_image_name rl)
  | _ => image
  end.

Definition map_one (ctx : context) (ri : role * value) : M world unit :=
  let image := image_or_default (fst ri) (snd ri) in
  r <- the_remote ctx (fst ri) ;;
  remote_run ctx r write_udev_rule ;;;
  remote_run ctx r install_udev_rule ;;;
  let secretfile := ("/tmp/cephtest/data/" ++ fst ri ++ ".secret")%string in
  write_secret_file ctx r (fst ri) secretfile ;;;
  remote_run ctx r (rbd_map (fst ri) secretfile image).

Definition unmap_one (ctx : context) (ri : role * value) : M world unit :=
  let image := image_or_default (fst ri) (snd ri) in
  r <- the_remote ctx (fst ri) ;;
  remote_run ctx r (rbd_unmap image) ;;;
  remote_run_nowait r remove_udev_rule.

Definition dev_create (ctx : context) (config : configuration value) : step world :=
  let role_images := items_of VNone config in
  {| enter :=
       assert (is_list_or_dict config)
         "task dev_create only supports a list or dictionary for configuration" ;;;
       for_each role_images (map_one ctx);
     exit := for_each role_images (unmap_one ctx) |}.

(** What [map_one] does on the remote before it maps the image: the
    udev rule and the secret file. *)
Definition map_prelude (ctx : context) (r : remote) (rl : role) : M world unit :=
  remote_run ctx r write_udev_rule ;;;
  remote_run ctx r install_udev_rule ;;;
  write_secret_file ctx r rl ("/tmp/cephtest/data/" ++ rl ++ ".secret")%string.

(** ** mkfs *)

Definition fs_type_of (p : option properties) : value :=
  Py.get (or_empty p) "fs_type" (VStr "ext3").

Definition mkfs_cmd (fs image : value) : sh :=
  Simple ([ VStr "sudo"; VStr "mkfs"; VStr "-t"; fs; VStr (dev_path image) ]).

Definition mkfs_one (ctx : context) (rp : role * option properties) : M world unit :=
  r <- the_remote ctx (fst rp) ;;
  let image := image_name_of (fst rp) (snd rp) in
  let fs := fs_type_of (snd rp) in
  remote_run ctx r (mkfs_cmd fs image).

(** The generator ends right after its [yield]: nothing is undone. *)
Definition mkfs (ctx : context) (config : configuration (option properties)) : step world :=
  let images := items_of None config in
  {| enter :=
       assert (is_list_or_dict config)
         "task mkfs must be configured with a list or dictionary" ;;;
       for_each images (mkfs_one ctx);
     exit := ret tt |}.

(** ** mount *)

Definition PREFIX : string := "client.".

Definition strip_client_prefix (rl : role) : M world string :=
  assert (Py.startswith PREFIX rl) EmptyString ;;;
  ret (Py.drop (String.length PREFIX) rl).

(** [mnt_template.format(id=id_)] *)
Definition mnt_of (id_ : string) : string := "/tmp/cephtest/mnt." ++ id_.

Definition mount_one (ctx : context) (ri : role * value) : M world unit :=
  let image := image_or_default (fst ri) (snd ri) in
  r <- the_remote ctx (fst ri) ;;
  id_ <- strip_client_prefix (fst ri) ;;
  let mnt := mnt_of id_ in
  remote_run ctx r (Simple (lits [ "mkdir"; "--"; mnt ])) ;;;
  remote_run ctx r (Simple (lits [ "sudo"; "mount"; dev_path image; mnt ])).

Definition umount_one (ctx : context) (ri : role * value) : M world unit :=
  r <- the_remote ctx (fst ri) ;;
  id_ <- strip_client_prefix (fst ri) ;;
  let mnt := mnt_of id_ in
  remote_run ctx r (Simple (lits [ "sudo"; "umount"; mnt ])) ;;;
  remote_run ctx r (Simple (lits [ "rmdir"; "--"; mnt ])).

Definition mount (ctx : context) (config : configuration value) : step world :=
  let role_images := items_of VNone config in
  {| enter :=
       assert (is_list_or_dict config)
         "task mount must be configured with a list or dictionary" ;;;
       for_each role_images (mount_one ctx);
     exit := for_each role_images (umount_one ctx) |}.

(** ** run_xfstests *)

(** [ctx.cluster.only(role).run(args, stdout=fp)]: every remote of the
    role runs the command and prints into the same buffer. *)
Fixpoint cluster_run_stdout (ctx : context) (rs : list remote) (argv : list value) : M world string :=
  match rs with
  | [] => ret EmptyString
  | r :: rest =>
      out <- remote_run_stdout ctx r argv ;;
      outs <- cluster_run_stdout ctx rest argv ;;
      ret (out ++ outs)%string
  end.

(** The path of [path] on the host of the role with no [.] or [..]
    components and no symbolic links. *)
Definition canonical_path (ctx : context) (rl : role) (path : value) : M world string :=
  out <- cluster_run_stdout ctx (only ctx rl) [ VStr "readlink"; VStr "-f"; path ] ;;
  ret (Py.rstrip_nl out).

Definition test_path : string := "/tmp/cephtest/run_xfstests.sh".
Definition test_url : string :=
  "https://raw.github.com/ceph/ceph/master/qa/run_xfstests.sh".

Definition run_xfstests_args (fs_type : value) (test_dev scratch_dev : string)
    (tests : value) : list value :=
  [ VStr "LD_LIBRARY_PATH=/tmp/cephtest/binary/usr/local/lib";
    VStr "/tmp/cephtest/enable-coredump";
    VStr "/tmp/cephtest/binary/usr/local/bin/ceph-coverage";
    VStr "/tmp/cephtest/archive/coverage";
    VStr "/usr/bin/sudo";
    VStr "/bin/bash";
    VStr test_path;
    VStr "-f"; fs_type;
    VStr "-t"; VStr test_dev;
    VStr "-s"; VStr scratch_dev ]
  ++ (if Py.truthy tests then [ tests ] else []).

Definition is_none (v : value) : bool :=
  match v with VNone => true | _ => false end.

Definition run_xfstests_one (ctx : context) (rp : role * properties) : M world unit :=
  let test_dev := Py.get (snd rp) "test_dev" VNone in
  assert (negb (is_none test_dev))
    "task run_xfstests requires test_dev to be defined" ;;;
  test_dev <- canonical_path ctx (fst rp) test_dev ;;
  let scratch_dev := Py.get (snd rp) "scratch_dev" VNone in
  assert (negb (is_none scratch_dev))
    "task run_xfstests requires scratch_dev to be defined" ;;;
  scratch_dev <- canonical_path ctx (fst rp) scratch_dev ;;
  let fs_type := Py.get (snd rp) "fs_type" VNone in
  let tests := Py.get (snd rp) "tests" VNone in
  r <- the_remote ctx (fst rp) ;;
  remote_run ctx r (Simple (lits [ "wget"; "-O"; test_path; "--"; test_url ])) ;;;
  remote_run ctx r (Simple (run_xfstests_args fs_type test_dev scratch_dev tests)).

Definition run_xfstests (ctx : context) (config : Py.dict properties) : step world :=
  {| enter := for_each config (run_xfstests_one ctx);
     exit :=
       for_each config (fun rp =>
         r <- the_remote ctx (fst rp) ;;
         remote_run ctx r (Simple (lits [ "rm"; "-f"; test_path ]))) |}.

(* ================================================================== *)
(** * The lifecycle stack *)

Section LifecycleStack.

Variable W : Type.

(** Runs an action and hands back its failure as a value. *)
Definition attempt {A} (m : M W A) : M W (exn + A) :=
  fun w =>
    match m w with
    | Diverge => Diverge
    | Raise e w' => Ret (inl e) w'
    | Ret a w' => Ret (inr a) w'
    end.

(** Modelled from the spec: the unwind of [contextutil.nested], whose
    code is not part of this module.  Every step of [entered] (the most
    recently entered first) has its [exit] run once, in that order; a
    failing exit does not stop the unwind, its failure is collected. *)
Fixpoint unwind (entered : list (step W)) : M W (list exn) :=
  match entered with
  | [] => ret []
  | st :: rest =>
      r <- attempt (exit st) ;;
      errs <- unwind rest ;;
      ret (match r with inl e => e :: errs | inr _ => errs end)
  end.

(** Modelled from the spec: the forward path of [contextutil.nested].
    The enters run strictly in list order; the steps entered so far are
    pushed on [entered]; the first failing enter stops the sequence and
    is handed back with the steps entered before it. *)
Fixpoint enter_all (steps entered : list (step W))
    : M W (list (step W) * option exn) :=
  match steps with
  | [] => ret (entered, None)
  | st :: rest =>
      r <- attempt (enter st) ;;
      match r with
      | inl e => ret (entered, Some e)
      | inr _ => enter_all rest (st :: entered)
      end
  end.

(** Modelled from the spec: how a run ends once the exits have run.  One
    or more failed exits after a successful body are reported as a
    combined failure. *)
Definition conclude {A} (a : A) (errs : list exn) : M W A :=
  match errs with
  | [] => ret a
  | _ => raise (TeardownError errs)
  end.

(** Modelled from the spec: [contextutil.nested] over a step list and the body of its [with],
    the Lifecycle Stack [run(steps, body)] of the specification.  A
    failing enter unwinds the steps already entered and propagates its
    own failure; otherwise the body runs and every step is unwound,
    whether the body returns or fails; the first failure wins. *)
Definition nested {A} (steps : list (step W)) (body : M W A) : M W A :=
  ee <- enter_all steps [] ;;
  match snd ee with
  | Some e => unwind (fst ee) ;;; raise e
  | None =>
      r <- attempt body ;;
      errs <- unwind (fst ee) ;;
      match r with
      | inl e => raise e
      | inr a => conclude a errs
      end
  end.

(** Modelled from the spec: a stack used as a step of another stack
    ([with contextutil.nested(...): yield] inside a context manager).
    Its enter and its exit delegate to the nested stack. *)
Definition nested_step (steps : list (step W)) : step W :=
  {| enter :=
       ee <- enter_all steps [] ;;
       match snd ee with
       | Some e => unwind (fst ee) ;;; raise e
       | None => ret tt
       end;
     exit :=
       errs <- unwind (rev steps) ;;
       conclude tt errs |}.

(** The enters of a step list one after the other, as far as they
    succeed. *)
Definition enter_seq (steps : list (step W)) : M W unit :=
  for_each steps (@enter W).

(** A step list in which steps may themselves be stacks. *)
Inductive plan : Type :=
| Leaf (st : step W)
| Nest (ps : list plan).

Fixpoint flatten (p : plan) : list (step W) :=
  match p with
  | Leaf st => [st]
  | Nest ps => flat_map flatten ps
  end.

Fixpoint step_of (p : plan) : step W :=
  match p with
  | Leaf st => st
  | Nest ps => nested_step (map step_of ps)
  end.

(** Two unwinds that stop in the same world, and fail together. *)
Definition same_unwinding (u1 u2 : res W (list exn)) : Prop :=
  match u2 with
  | Diverge => u1 = Diverge
  | Raise _ _ => False
  | Ret errs2 w' => exists errs1, u1 = Ret errs1 w' /\ (errs1 = [] <-> errs2 = [])
  end.

End LifecycleStack.

(** Induction on plans that reaches the plans inside a [Nest]. *)
Section PlanInduction.

Variable W : Type.
Variable P : plan W -> Prop.
Hypothesis P_Leaf : forall st, P (Leaf st).
Hypothesis P_Nest : forall ps, Forall P ps -> P (Nest ps).

Fixpoint plan_nested_ind (p : plan W) : P p :=
  match p with
  | Leaf st => P_Leaf st
  | Nest ps =>
      P_Nest
        ((fix all (l : list (plan W)) : Forall P l :=
            match l with
            | [] => Forall_nil P
            | q :: l' => Forall_cons q (plan_nested_ind q) (all l')
            end) ps)
  end.

End PlanInduction.

(* ================================================================== *)
(** * Task composition *)

(** Modelled from the spec: the targets the alias [all] stands for,
    every role of the cluster in the client group
    ([teuthology.all_roles_of_type(cluster, 'client')] is not part of
    this module). *)
Definition clients (ctx : context) : list role :=
  filter (Py.startswith "client.") (flat_map snd (cluster ctx)).

(** Modelled from the spec: [teuthology.replace_all_with_clients], the
    alias expansion of the Config Normalizer.  A dictionary with the key
    [all] becomes the dictionary that maps every client to the
    properties given for [all]; any other dictionary is returned as it
    is. *)
Definition replace_all_with_clients {X} (ctx : context) (d : Py.dict X) : Py.dict X :=
  match Py.lookup d "all" with
  | None => d
  | Some p => fold_left (fun norm c => Py.set norm c p) (clients ctx) []
  end.

(** [if config is None: config = { 'all': None }] *)
Definition or_all (config : configuration (option properties)) : configuration (option properties) :=
  match config with
  | CNone => CDict [("all", None)]
  | _ => config
  end.

(** The configuration [task] hands to its steps. *)
Definition norm_config_of (ctx : context) (config : configuration (option properties))
    : configuration (option properties) :=
  match or_all config with
  | CDict d => CDict (replace_all_with_clients ctx d)
  | c => c
  end.

(** [role_images]: the image name given for every role, [None] when the
    properties give none. *)
Definition role_images_of (norm_config : configuration (option properties)) : configuration value :=
  match norm_config with
  | CDict d =>
      CDict (fold_left
               (fun role_images rp =>
                  Py.set role_images (fst rp)
                    (Py.get (or_empty (snd rp)) "image_name" VNone))
               d [])
  | CList roles => CList roles
  | CNone => CNone
  end.

Definition task_steps (ctx : context) (config : configuration (option properties))
    : list (step world) :=
  let norm_config := norm_config_of ctx config in
  let role_images := role_images_of norm_config in
  [ create_image ctx norm_config;
    modprobe ctx norm_config;
    dev_create ctx role_images;
    mkfs ctx norm_config;
    mount ctx role_images ].

(** Create and mount an rbd image. *)
Definition task (ctx : context) (config : configuration (option properties)) : step world :=
  nested_step (task_steps ctx config).

(** ** xfstests *)

(** The failures of plan building, under the names of the
    specification. *)
Definition ConfigError_not_client : exn :=
  AssertionError "task xfstests can only run on client nodes".
Definition ConflictError : exn :=
  AssertionError "task xfstests allows only one instance at a time per host".

Definition xfstests_runs (ctx : context) (config : configuration (option properties))
    : list (role * option properties) :=
  match or_all config with
  | CDict d => replace_all_with_clients ctx d
  | c => items_of None c
  end.

(** The inner loop of the check: every host holding the role is claimed
    in [running_xfstests], and must not be claimed already. *)
Fixpoint claim_hosts (rl : role) (remotes : list (remote * list role))
    (running_xfstests : Py.dict bool) : M world (Py.dict bool) :=
  match remotes with
  | [] => ret running_xfstests
  | (host, roles_for_host) :: rest =>
      if has_role rl roles_for_host then
        assert (negb (Py.mem running_xfstests host))
          "task xfstests allows only one instance at a time per host" ;;;
        claim_hosts rl rest (Py.set running_xfstests host true)
      else claim_hosts rl rest running_xfstests
  end.

Fixpoint check_runs (ctx : context) (runs : list (role * option properties))
    (running_xfstests : Py.dict bool) : M world unit :=
  match runs with
  | [] => ret tt
  | (rl, _) :: rest =>
      assert (Py.startswith "client." rl)
        "task xfstests can only run on client nodes" ;;;
      running <- claim_hosts rl (cluster ctx) running_xfstests ;;
      check_runs ctx rest running
  end.

(** The configurations [xfstests] builds for the steps of one run. *)
Definition test_image_of (properties : properties) : value :=
  Py.get properties "test_image" (VStr "test_image").
Definition scratch_image_of (properties : properties) : value :=
  Py.get properties "scratch_image" (VStr "scratch_image").

Definition test_image_config (properties : properties) : Py.dict value :=
  let test_size := Py.get properties "test_size" (VInt 1000) in
  Py.set (Py.set [] "image_name" (test_image_of properties)) "image_size" test_size.

Definition scratch_image_config (properties : properties) : Py.dict value :=
  let scratch_size := Py.get properties "scratch_size" (VInt 1000) in
  Py.set (Py.set [] "image_name" (scratch_image_of properties)) "image_size" scratch_size.

Definition test_config (properties : properties) : Py.dict value :=
  Py.set (Py.set (Py.set (Py.set []
    "test_dev" (VStr (dev_path (test_image_of properties))))
    "scratch_dev" (VStr (dev_path (scratch_image_of properties))))
    "fs_type" (Py.get properties "fs_type" (VStr "xfs")))
    "tests" (Py.get properties "tests" VNone).

(** The steps of one run: a test and a scratch image, the kernel
    module, the two mappings and the workload. *)
Definition xfstests_steps (ctx : context) (run : role * option properties)
    : list (step world) :=
  let rl := fst run in
  let properties := or_empty (snd run) in
  [ create_image ctx (CDict [(rl, Some (test_image_config properties))]);
    create_image ctx (CDict [(rl, Some (scratch_image_config properties))]);
    modprobe ctx (CDict [(rl, @None (Py.dict value))]);
    dev_create ctx (CDict [(rl, test_image_of properties)]);
    dev_create ctx (CDict [(rl, scratch_image_of properties)]);
    run_xfstests ctx [(rl, test_config properties)] ].

(** [xfstests] up to its first [yield]: the plan is checked before
    anything is provisioned, then the steps of the first run are
    entered.  A generator that ends without a [yield] is an error of
    [contextlib]. *)
Definition xfstests_enter (ctx : context) (config : configuration (option properties))
    : M world unit :=
  assert (is_list_or_dict (or_all config))
    "task xfstests only supports a list or dictionary for configuration" ;;;
  let runs := xfstests_runs ctx config in
  check_runs ctx runs [] ;;;
  match runs with
  | [] => raise (RuntimeError "generator didn't yield")
  | run :: _ => enter (nested_step (xfstests_steps ctx run))
  end.

(* ================================================================== *)
(** * Concrete runs *)

(** Whether a simple command is one of the probes of a poll loop. *)
Definition is_probe (argv : list value) : bool :=
  match argv with
  | VStr s :: _ => String.eqb s "test"
  | _ => false
  end.

(** Whether a simple command runs the program [prog] under [sudo]. *)
Definition is_sudo (prog : string) (argv : list value) : bool :=
  match argv with
  | VStr _ :: VStr s :: _ => String.eqb s prog
  | _ => false
  end.

Definition demo_w0 : world := World 0 [].

Definition demo_cluster : list (remote * list role) :=
  [("h1", ["client.0"]); ("h2", ["client.1"])].

(** Every command succeeds and udev is prompt: the first probe of every
    poll loop ends the loop. *)
Definition quiet_ctx : context :=
  {| cluster := demo_cluster;
     status := fun _ _ argv => negb (is_probe argv);
     output := fun _ _ _ => EmptyString;
     fuel := 1;
     write_secret_file := fun _ _ _ => ret tt |}.

(** As [quiet_ctx], but [mkfs] fails. *)
Definition mkfs_fails_ctx : context :=
  {| cluster := demo_cluster;
     status := fun _ _ argv => negb (is_probe argv) && negb (is_sudo "mkfs" argv);
     output := fun _ _ _ => EmptyString;
     fuel := 1;
     write_secret_file := fun _ _ _ => ret tt |}.

Definition demo_config : configuration (option properties) := CList ["client.0"].

(** A cluster with a host that holds no client. *)
Definition mixed_ctx : context :=
  {| cluster := [("h1", ["client.0"]); ("h3", ["osd.0"])];
     status := fun _ _ argv => negb (is_probe argv);
     output := fun _ _ _ => EmptyString;
     fuel := 1;
     write_secret_file := fun _ _ _ => ret tt |}.

(** Whether a command line holds the word [word]. *)
Definition mentions (word : string) (argv : list value) : bool :=
  existsb (fun v => String.eqb (Py.str v) word) argv.

(** Unloading the kernel module fails; so does unmapping a device. *)
Definition busy_ctx : context :=
  {| cluster := demo_cluster;
     status := fun _ _ argv =>
       negb (is_probe argv) && negb (mentions "-r" argv)
       && negb (mentions "unmap" argv);
     output := fun _ _ _ => EmptyString;
     fuel := 1;
     write_secret_file := fun _ _ _ => ret tt |}.

(** Creating the image [name] fails. *)
Definition no_image_ctx (name : string) : context :=
  {| cluster := demo_cluster;
     status := fun _ _ argv =>
       negb (is_probe argv)
       && negb (mentions "create" argv && mentions name argv);
     output := fun _ _ _ => EmptyString;
     fuel := 1;
     write_secret_file := fun _ _ _ => ret tt |}.

Definition two_clients : configuration (option properties) :=
  CList ["client.0"; "client.1"].

(** One host holds a client and a role that is no client. *)
Definition mixed_host_ctx : context :=
  {| cluster := [("h1", ["client.0"; "osd.0"])];
     status := fun _ _ _ => true;
     output := fun _ _ _ => EmptyString;
     fuel := 1;
     write_secret_file := fun _ _ _ => ret tt |}.

(** Unmounting fails. *)
Definition busy_umount_ctx : context :=
  {| cluster := demo_cluster;
     status := fun _ _ argv => negb (mentions "umount" argv);
     output := fun _ _ _ => EmptyString;
     fuel := 1;
     write_secret_file := fun _ _ _ => ret tt |}.

(** Removing an image fails. *)
Definition no_rm_ctx : context :=
  {| cluster := demo_cluster;
     status := fun _ _ argv => negb (mentions "rm" argv);
     output := fun _ _ _ => EmptyString;
     fuel := 1;
     write_secret_file := fun _ _ _ => ret tt |}.

(** [readlink] prints the device [/dev/rbd0] for every path, and a
    newline. *)
Definition readlink_ctx : context :=
  {| cluster := demo_cluster;
     status := fun _ _ _ => true;
     output := fun _ _ _ => String.append "/dev/rbd0" (String "010"%char EmptyString);
     fuel := 1;
     write_secret_file := fun _ _ _ => ret tt |}.

(** Every command succeeds and every probe finds the symlink: it never
    disappears.  The poll loops may probe [n] times. *)
Definition stuck_ctx (n : nat) : context :=
  {| cluster := demo_cluster;
     status := fun _ _ _ => true;
     output := fun _ _ _ => EmptyString;
     fuel := n;
     write_secret_file := fun _ _ _ => ret tt |}.

(** The probes find the symlink until time 5. *)
Definition slow_ctx : context :=
  {| cluster := demo_cluster;
     status := fun t _ argv => if is_probe argv then Nat.ltb t 5 else true;
     output := fun _ _ _ => EmptyString;
     fuel := 3;
     write_secret_file := fun _ _ _ => ret tt |}.

(** Steps that only write what they do into a journal. *)
Definition journal : Type := list string.

Definition noting (label : string) : step journal :=
  {| enter := fun j => Ret tt (j ++ [("enter " ++ label)%string]);
     exit := fun j => Ret tt (j ++ [("exit " ++ label)%string]) |}.

Definition stopped_in {A} (r : res world A) : world :=
  match r with
  | Ret _ w => w
  | Raise _ w => w
  | Diverge => demo_w0
  end.

(** The world once the five steps of [task] are entered. *)
Definition demo_entered : world :=
  Eval vm_compute in stopped_in (enter_seq (task_steps quiet_ctx demo_config) demo_w0).

(** The worlds before and after the failing [mkfs]. *)
Definition demo_mapped : world :=
  Eval vm_compute in
    stopped_in (enter_seq (firstn 3 (task_steps mkfs_fails_ctx demo_config)) demo_w0).
Definition demo_mkfs_failed : world :=
  Eval vm_compute in
    stopped_in (enter (mkfs mkfs_fails_ctx (norm_config_of mkfs_fails_ctx demo_config))
                  demo_mapped).

(* ================================================================== *)
(** * Vocabulary of the properties of the steps *)

(** The remote of a role that has exactly one. *)
Definition host_of (ctx : context) (rl : role) : remote :=
  hd EmptyString (only ctx rl).

(** [n] newline characters. *)
Fixpoint newlines (n : nat) : string :=
  match n with
  | O => EmptyString
  | S k => String "010"%char (newlines k)
  end.

(** Whether a string holds a dot. *)
Definition has_dot (s : string) : bool :=
  existsb (Ascii.eqb "."%char) (list_ascii_of_string s).

(** The hosts the runs of a configuration of xfstests need, run by
    run. *)
Definition hosts_of_runs (ctx : context) (runs : list (role * option properties))
    : list remote :=
  flat_map (fun run => only ctx (fst run)) runs.

(** Two steps that do the same in every world. *)
Definition same_step (a b : step world) : Prop :=
  (forall w, enter a w = enter b w) /\ (forall w, exit a w = exit b w).

(** The log entries of the commands of a target, step by step. *)
Definition created (ctx : context) (rp : role * option properties)
    : list (remote * list arg) :=
  [(host_of ctx (fst rp),
    tokens (rbd_create (image_name_of (fst rp) (snd rp))
              (image_size_of (snd rp)) (image_format_of (snd rp))))].

Definition deleted (ctx : context) (rp : role * option properties)
    : list (remote * list arg) :=
  [(host_of ctx (fst rp), tokens (rbd_rm (image_name_of (fst rp) (snd rp))))].

Definition mounted (ctx : context) (ri : role * value) : list (remote * list arg) :=
  let mnt := mnt_of (Py.drop (String.length PREFIX) (fst ri)) in
  [(host_of ctx (fst ri), map Arg (lits [ "mkdir"; "--"; mnt ]));
   (host_of ctx (fst ri),
    map Arg (lits [ "sudo"; "mount";
                    dev_path (image_or_default (fst ri) (snd ri)); mnt ]))].

Definition unmounted (ctx : context) (ri : role * value) : list (remote * list arg) :=
  let mnt := mnt_of (Py.drop (String.length PREFIX) (fst ri)) in
  [(host_of ctx (fst ri), map Arg (lits [ "sudo"; "umount"; mnt ]));
   (host_of ctx (fst ri), map Arg (lits [ "rmdir"; "--"; mnt ]))].


(** The hosts of the targets of a configuration. *)
Definition hosts_of_targets (ctx : context) (roles : list role) : list remote :=
  flat_map (only ctx) roles.

(** No command of the log ran outside [hosts]. *)
Definition confined (hosts : list remote) (w : world) : Prop :=
  Forall (fun entry => In (fst entry) hosts) (log w).

(** An action that, started where no command ran outside [hosts], stops
    where none did. *)
Definition keeps_to {A} (hosts : list remote) (m : M world A) : Prop :=
  forall w w', confined hosts w -> world_of (m w) = Some w' -> confined hosts w'.

(* ================================================================== *)
(** * The command lines as the module writes them *)

Lemma modprobe_unload_args :
  tokens modprobe_unload
  = [ Arg (VStr "sudo"); Arg (VStr "modprobe"); Arg (VStr "-r");
      Arg (VStr "rbd"); Raw "||"; Arg (VStr "true") ].
Proof. reflexivity. Qed.

Lemma write_udev_rule_args :
  tokens write_udev_rule
  = [ Arg (VStr "echo"); Arg (VStr udev_rule); Raw ">";
      Arg (VStr "/tmp/cephtest/51-rbd.rules") ].
Proof. reflexivity. Qed.

Lemma rbd_map_args (rl : role) (secretfile : string) (image : value) :
  tokens (rbd_map rl secretfile image)
  = [ Arg (VStr "sudo");
      Arg (VStr "LD_LIBRARY_PATH=/tmp/cephtest/binary/usr/local/lib");
      Arg (VStr "/tmp/cephtest/enable-coredump");
      Arg (VStr "/tmp/cephtest/binary/usr/local/bin/ceph-coverage");
      Arg (VStr "/tmp/cephtest/archive/coverage");
      Arg (VStr "/tmp/cephtest/binary/usr/local/bin/rbd");
      Arg (VStr "-c"); Arg (VStr "/tmp/cephtest/ceph.conf");
      Arg (VStr "--user"); Arg (VStr (Py.after_last_dot rl));
      Arg (VStr "--secret"); Arg (VStr secretfile);
      Arg (VStr "-p"); Arg (VStr "rbd");
      Arg (VStr "map");
      Arg image;
      Raw "&&";
      Arg (VStr "while"); Arg (VStr "test"); Arg (VStr "!"); Arg (VStr "-e");
      Arg (VStr (dev_path image)); Raw ";"; Arg (VStr "do");
      Arg (VStr "sleep"); Arg (VStr "1"); Raw ";";
      Arg (VStr "done") ].
Proof. reflexivity. Qed.

Lemma rbd_unmap_args (image : value) :
  tokens (rbd_unmap image)
  = [ Arg (VStr "sudo");
      Arg (VStr "LD_LIBRARY_PATH=/tmp/cephtest/binary/usr/local/lib");
      Arg (VStr "/tmp/cephtest/enable-coredump");
      Arg (VStr "/tmp/cephtest/binary/usr/local/bin/ceph-coverage");
      Arg (VStr "/tmp/cephtest/archive/coverage");
      Arg (VStr "/tmp/cephtest/binary/usr/local/bin/rbd");
      Arg (VStr "-c"); Arg (VStr "/tmp/cephtest/ceph.conf");
      Arg (VStr "-p"); Arg (VStr "rbd");
      Arg (VStr "unmap");
      Arg (VStr (dev_path image));
      Raw "&&";
      Arg (VStr "while"); Arg (VStr "test"); Arg (VStr "-e");
      Arg (VStr (dev_path image));
      Raw ";";
      Arg (VStr "do");
      Arg (VStr "sleep"); Arg (VStr "1"); Raw ";";
      Arg (VStr "done") ].
Proof. reflexivity. Qed.

Lemma after_last_dot_of_client : Py.after_last_dot "client.0" = "0".
Proof. reflexivity. Qed.

(* ================================================================== *)
(** * Facts about the lifecycle stack *)

Section StackFacts.

Variable W : Type.

Implicit Types (steps pre post entered : list (step W)) (st : step W) (w : W).

Lemma for_each_app {X} (xs ys : list X) (body : X -> M W unit) w :
  for_each (xs ++ ys) body w = (for_each xs body ;;; for_each ys body) w.
Proof.
  revert w. induction xs as [|x xs IH]; intros w; simpl.
  - reflexivity.
  - unfold bind in *. destruct (body x w) as [|e w'|[] w']; try reflexivity.
    apply IH.
Qed.

(** A sequence of enters that succeeds splits at every position. *)
Lemma enter_seq_app_ok pre post w w2 :
  enter_seq (pre ++ post) w = Ret tt w2 ->
  exists w1, enter_seq pre w = Ret tt w1 /\ enter_seq post w1 = Ret tt w2.
Proof.
  unfold enter_seq. rewrite for_each_app. unfold bind.
  destruct (for_each pre (@enter W) w) as [|e w'|[] w']; try discriminate.
  intros H. exists w'. split; [reflexivity | exact H].
Qed.

Lemma enter_seq_app_intro pre post w w1 w2 :
  enter_seq pre w = Ret tt w1 -> enter_seq post w1 = Ret tt w2 ->
  enter_seq (pre ++ post) w = Ret tt w2.
Proof.
  unfold enter_seq. intros H1 H2. rewrite for_each_app. unfold bind.
  rewrite H1. exact H2.
Qed.

Lemma enter_seq_cons_ok st steps w w2 :
  enter_seq (st :: steps) w = Ret tt w2 ->
  exists w1, enter st w = Ret tt w1 /\ enter_seq steps w1 = Ret tt w2.
Proof.
  unfold enter_seq. simpl. unfold bind.
  destruct (enter st w) as [|e w'|[] w']; try discriminate.
  intros H. exists w'. split; [reflexivity | exact H].
Qed.

(** When every enter succeeds, the stack holds the steps in reverse
    order of entry. *)
Lemma enter_all_ok steps : forall entered w w1,
  enter_seq steps w = Ret tt w1 ->
  enter_all steps entered w = Ret (rev steps ++ entered, None) w1.
Proof.
  induction steps as [|st steps IH]; intros entered w w1 H.
  - unfold enter_seq in H. simpl in H. unfold ret in H.
    injection H as ->. reflexivity.
  - apply enter_seq_cons_ok in H. destruct H as (wm & Hst & Hrest).
    simpl. unfold bind, attempt. rewrite Hst.
    rewrite (IH (st :: entered) wm w1 Hrest).
    rewrite <- app_assoc. reflexivity.
Qed.

(** The first failing enter stops the sequence: the stack holds the
    steps before it, whatever follows it. *)
Lemma enter_all_fail pre st post entered w w1 w2 e :
  enter_seq pre w = Ret tt w1 ->
  enter st w1 = Raise e w2 ->
  enter_all (pre ++ st :: post) entered w = Ret (rev pre ++ entered, Some e) w2.
Proof.
  revert entered w. induction pre as [|p pre IH]; intros entered w Hpre Hst.
  - unfold enter_seq in Hpre. simpl in Hpre. unfold ret in Hpre.
    injection Hpre as ->. simpl. unfold bind, attempt. rewrite Hst.
    reflexivity.
  - apply enter_seq_cons_ok in Hpre. destruct Hpre as (wm & Hp & Hrest).
    simpl. unfold bind, attempt. rewrite Hp.
    rewrite (IH (p :: entered) wm Hrest Hst).
    rewrite <- app_assoc. reflexivity.
Qed.

(** The unwind collects failures and never raises one itself. *)
Lemma unwind_never_raises entered : forall w e w',
  unwind entered w <> Raise e w'.
Proof.
  induction entered as [|st rest IH]; intros w e w'; simpl.
  - discriminate.
  - unfold bind, attempt.
    destruct (exit st w) as [|e1 w1|[] w1]; try discriminate.
    + destruct (unwind rest w1) as [|e2 w2|errs w2] eqn:E; try discriminate.
      exfalso. exact (IH _ _ _ E).
    + destruct (unwind rest w1) as [|e2 w2|errs w2] eqn:E; try discriminate.
      exfalso. exact (IH _ _ _ E).
Qed.

Lemma unwind_app (l1 l2 : list (step W)) : forall w,
  unwind (l1 ++ l2) w =
  (errs1 <- unwind l1 ;; errs2 <- unwind l2 ;; ret (errs1 ++ errs2)) w.
Proof.
  induction l1 as [|st l1 IH]; intros w; simpl.
  - unfold bind, ret. destruct (unwind l2 w); reflexivity.
  - unfold bind, attempt, ret in *.
    destruct (exit st w) as [|e1 w1|[] w1]; try reflexivity.
    + rewrite IH.
      destruct (unwind l1 w1) as [| |errs1 wa]; try reflexivity.
      destruct (unwind l2 wa) as [| |errs2 wb]; reflexivity.
    + rewrite IH.
      destruct (unwind l1 w1) as [| |errs1 wa]; try reflexivity.
      destruct (unwind l2 wa) as [| |errs2 wb]; reflexivity.
Qed.

Lemma same_unwinding_refl entered w :
  same_unwinding (unwind entered w) (unwind entered w).
Proof.
  unfold same_unwinding.
  destruct (unwind entered w) as [|e w'|errs w'] eqn:E.
  - reflexivity.
  - eapply unwind_never_raises. exact E.
  - exists errs. split; [reflexivity | tauto].
Qed.

Lemma same_unwinding_app (l1 l1' l2 l2' : list (step W)) :
  (forall w, same_unwinding (unwind l1 w) (unwind l1' w)) ->
  (forall w, same_unwinding (unwind l2 w) (unwind l2' w)) ->
  forall w, same_unwinding (unwind (l1 ++ l2) w) (unwind (l1' ++ l2') w).
Proof.
  intros H1 H2 w. rewrite !unwind_app. unfold bind, ret.
  specialize (H1 w). unfold same_unwinding in H1.
  destruct (unwind l1' w) as [|e wa|errs1' wa].
  - rewrite H1. reflexivity.
  - contradiction.
  - destruct H1 as (errs1 & -> & Hiff1).
    specialize (H2 wa). unfold same_unwinding in H2.
    destruct (unwind l2' wa) as [|e wb|errs2' wb].
    + rewrite H2. reflexivity.
    + contradiction.
    + destruct H2 as (errs2 & -> & Hiff2). simpl.
      exists (errs1 ++ errs2). split; [reflexivity|].
      split; intros H; apply app_eq_nil in H; destruct H as [Ha Hb];
        apply Hiff1 in Ha; apply Hiff2 in Hb; subst; reflexivity.
Qed.

(** Entering a plan enters its leaves from left to right. *)
Lemma enter_plans_ok (ps : list (plan W)) :
  Forall (fun p => forall w w1,
            enter_seq (flatten p) w = Ret tt w1 ->
            enter (step_of p) w = Ret tt w1) ps ->
  forall w w1,
    enter_seq (flat_map (@flatten W) ps) w = Ret tt w1 ->
    enter_seq (map (@step_of W) ps) w = Ret tt w1.
Proof.
  induction 1 as [|p ps Hp _ IH]; intros w w1 H; simpl in *.
  - exact H.
  - apply enter_seq_app_ok in H. destruct H as (wm & Hflat & Hrest).
    change (enter_seq ([step_of p] ++ map (@step_of W) ps) w = Ret tt w1).
    apply enter_seq_app_intro with (w1 := wm); [|exact (IH _ _ Hrest)].
    unfold enter_seq. simpl. unfold bind. rewrite (Hp _ _ Hflat).
    reflexivity.
Qed.

Lemma enter_step_of (p : plan W) : forall w w1,
  enter_seq (flatten p) w = Ret tt w1 ->
  enter (step_of p) w = Ret tt w1.
Proof.
  induction p as [st|ps IH] using plan_nested_ind; intros w w1 H; simpl in *.
  - unfold enter_seq in H. simpl in H. unfold bind, ret in H.
    destruct (enter st w) as [|e w'|[] w']; try discriminate. exact H.
  - pose proof (enter_plans_ok IH w H) as Hseq.
    unfold bind. erewrite enter_all_ok by exact Hseq. reflexivity.
Qed.

(** Leaving a plan leaves its leaves from right to left. *)
Lemma exit_plans_same (ps : list (plan W)) :
  Forall (fun p => forall w,
            same_unwinding (unwind [step_of p] w)
                           (unwind (rev (flatten p)) w)) ps ->
  forall w,
    same_unwinding (unwind (rev (map (@step_of W) ps)) w)
                   (unwind (rev (flat_map (@flatten W) ps)) w).
Proof.
  induction 1 as [|p ps Hp _ IH]; intros w; simpl.
  - exists []. split; [reflexivity | tauto].
  - rewrite rev_app_distr. apply same_unwinding_app; assumption.
Qed.

Lemma exit_step_of (p : plan W) : forall w,
  same_unwinding (unwind [step_of p] w) (unwind (rev (flatten p)) w).
Proof.
  induction p as [st|ps IH] using plan_nested_ind; intros w.
  - apply same_unwinding_refl.
  - pose proof (exit_plans_same IH w) as Hsame.
    cbn [step_of flatten unwind nested_step exit].
    unfold same_unwinding in *. unfold bind, attempt, ret.
    destruct (unwind (rev (flat_map (@flatten W) ps)) w) as [|e w'|errs w'].
    + rewrite Hsame. reflexivity.
    + contradiction.
    + destruct Hsame as (errs1 & -> & Hiff).
      destruct errs1 as [|e1 errs1]; simpl.
      * exists []. split; [reflexivity | exact Hiff].
      * eexists. split; [reflexivity|].
        split; intros H; [discriminate|].
        apply Hiff in H. discriminate.
Qed.

(** A run over plans whose enters and body succeed ends as the unwind
    of the flattened plans, in reverse, ends. *)
Lemma nested_of_plans {A} (ps : list (plan W)) (body : M W A) w w1 w2 (a : A) :
  enter_seq (flat_map (@flatten W) ps) w = Ret tt w1 ->
  body w1 = Ret a w2 ->
  let run := nested (map (@step_of W) ps) body w in
  let exits := unwind (rev (flat_map (@flatten W) ps)) w2 in
  world_of run = world_of exits /\
  (forall w3, exits = Ret [] w3 -> run = Ret a w3) /\
  (forall e errs w3, exits = Ret (e :: errs) w3 ->
     exists errs', run = Raise (TeardownError errs') w3).
Proof.
  intros Henter Hbody run exits.
  assert (Hseq : enter_seq (map (@step_of W) ps) w = Ret tt w1).
  { apply enter_plans_ok; [|exact Henter].
    apply Forall_forall. intros p _. apply enter_step_of. }
  assert (Hsame : same_unwinding (unwind (rev (map (@step_of W) ps)) w2) exits).
  { apply exit_plans_same. apply Forall_forall. intros p _.
    apply exit_step_of. }
  assert (Hrun : run =
                 (errs <- unwind (rev (map (@step_of W) ps)) ;; conclude a errs) w2).
  { unfold run, nested. unfold bind at 1.
    erewrite enter_all_ok by exact Hseq. cbn [snd fst].
    rewrite app_nil_r. unfold bind at 1. unfold attempt. rewrite Hbody.
    reflexivity. }
  unfold same_unwinding in Hsame. rewrite Hrun. unfold bind.
  destruct exits as [|e w'|errs w'].
  - rewrite Hsame. repeat split; intros; discriminate.
  - contradiction.
  - destruct Hsame as (errs1 & -> & Hiff).
    destruct errs1 as [|e1 errs1]; simpl.
    + repeat split.
      * intros w3 H. injection H as _ ->. reflexivity.
      * intros e errs0 w3 H. injection H as -> ->.
        destruct Hiff as [Hiff _]. specialize (Hiff eq_refl). discriminate.
    + repeat split.
      * intros w3 H. injection H as -> ->.
        destruct Hiff as [_ Hiff]. specialize (Hiff eq_refl). discriminate.
      * intros e errs0 w3 H. injection H as _ ->. eexists. reflexivity.
Qed.

(** A stack whose enter fails at some step never reaches what follows
    the step. *)
Lemma nested_stops_at_failing_enter {A} pre st post (body : M W A) w w1 w2 e :
  enter_seq pre w = Ret tt w1 ->
  enter st w1 = Raise e w2 ->
  nested (pre ++ st :: post) body w = (unwind (rev pre) ;;; raise e) w2.
Proof.
  intros Hpre Hst. unfold nested. unfold bind at 1.
  erewrite enter_all_fail by eassumption. cbn [snd fst].
  rewrite app_nil_r. reflexivity.
Qed.

End StackFacts.

(* ================================================================== *)
(** * The ordering guarantees of the lifecycle stack *)

(** C1.  For every step list, steps possibly being stacks of their own:
    when every enter succeeds and the body succeeds, the run stops in
    the world reached by running, after the body, the exit of every
    entered step once, in the exact reverse of the order of the enters
    across the flattened list; it returns the result of the body when no
    exit fails and reports the failed exits otherwise. *)
Theorem exits_run_once_in_reverse_order :
  forall (W A : Type) (ps : list (plan W)) (body : M W A)
         (w w1 w2 : W) (a : A),
    enter_seq (flat_map (@flatten W) ps) w = Ret tt w1 ->
    body w1 = Ret a w2 ->
    let run := nested (map (@step_of W) ps) body w in
    let exits := unwind (rev (flat_map (@flatten W) ps)) w2 in
    world_of run = world_of exits /\
    (forall w3, exits = Ret [] w3 -> run = Ret a w3) /\
    (forall e errs w3, exits = Ret (e :: errs) w3 ->
       exists errs', run = Raise (TeardownError errs') w3).
Proof.
  intros W A ps body w w1 w2 a Henter Hbody.
  apply nested_of_plans with (w1 := w1); assumption.
Qed.

(** C2.  For every step list and every position in it: when the enters
    before that position succeed and the enter at that position raises,
    no later enter and no body runs (the outcome does not depend on
    them), the exits of exactly the steps before the position run, in
    reverse order, and the failure handed to the caller is the one the
    failing enter raised. *)
Theorem failing_enter_unwinds_its_predecessors :
  forall (W A : Type) (pre post : list (step W)) (st : step W)
         (body : M W A) (w w1 w2 : W) (e : exn),
    enter_seq pre w = Ret tt w1 ->
    enter st w1 = Raise e w2 ->
    nested (pre ++ st :: post) body w = (unwind (rev pre) ;;; raise e) w2.
Proof.
  intros W A pre post st body w w1 w2 e Hpre Hst.
  apply nested_stops_at_failing_enter with (w1 := w1); assumption.
Qed.

Lemma exits_run_once_in_reverse_order_witness :
  let ps := [Nest (map (@Leaf world) (task_steps quiet_ctx demo_config))] in
  enter_seq (flat_map (@flatten world) ps) demo_w0 = Ret tt demo_entered /\
  world_of (nested (map (@step_of world) ps) (ret tt) demo_w0)
  = world_of (unwind (rev (task_steps quiet_ctx demo_config)) demo_entered).
Proof.
  intros ps.
  assert (Henter : enter_seq (flat_map (@flatten world) ps) demo_w0
                   = Ret tt demo_entered) by (vm_compute; reflexivity).
  split; [exact Henter|].
  destruct (@exits_run_once_in_reverse_order world unit ps (ret tt)
              demo_w0 demo_entered demo_entered tt Henter eq_refl)
    as [Hworld _].
  exact Hworld.
Defined.

Lemma failing_enter_unwinds_its_predecessors_witness :
  let steps := task_steps mkfs_fails_ctx demo_config in
  enter_seq (firstn 3 steps) demo_w0 = Ret tt demo_mapped /\
  nested steps (ret tt) demo_w0
  = (unwind (rev (firstn 3 steps)) ;;;
     raise (RemoteCommandError "h1"
              (tokens (mkfs_cmd (VStr "ext3") (VStr "testimage.client.0")))))
      demo_mkfs_failed.
Proof.
  intros steps.
  assert (Hpre : enter_seq (firstn 3 steps) demo_w0 = Ret tt demo_mapped)
    by (vm_compute; reflexivity).
  split; [exact Hpre|].
  apply (@failing_enter_unwinds_its_predecessors world unit
           (firstn 3 steps) (skipn 4 steps)
           (mkfs mkfs_fails_ctx (norm_config_of mkfs_fails_ctx demo_config))
           (ret tt) demo_w0 demo_mapped demo_mkfs_failed _ Hpre).
  vm_compute. reflexivity.
Defined.

(** The journal of a run of [N] journal steps, for every [N]: the enters
    in list order, then the exits in the reverse order. *)
Lemma journal_of_enters (ls : list string) : forall j : journal,
  enter_seq (map noting ls) j
  = Ret tt (j ++ map (fun l => ("enter " ++ l)%string) ls).
Proof.
  induction ls as [|l ls IH]; intros j.
  - simpl. rewrite app_nil_r. reflexivity.
  - unfold enter_seq in *. simpl. unfold bind. rewrite IH.
    rewrite <- app_assoc. reflexivity.
Qed.

Lemma journal_of_exits (ls : list string) : forall j : journal,
  unwind (map noting ls) j
  = Ret [] (j ++ map (fun l => ("exit " ++ l)%string) ls).
Proof.
  induction ls as [|l ls IH]; intros j.
  - simpl. rewrite app_nil_r. reflexivity.
  - simpl. unfold bind, attempt. rewrite IH.
    rewrite <- app_assoc. reflexivity.
Qed.

Lemma journal_of_a_run (ls : list string) (j : journal) :
  nested (map noting ls) (ret tt) j
  = Ret tt (j ++ map (fun l => ("enter " ++ l)%string) ls
              ++ map (fun l => ("exit " ++ l)%string) (rev ls)).
Proof.
  unfold nested. unfold bind at 1.
  erewrite enter_all_ok by apply journal_of_enters. cbn [snd fst].
  rewrite app_nil_r, <- map_rev. unfold bind, attempt, ret.
  rewrite journal_of_exits. rewrite <- app_assoc. reflexivity.
Qed.

Lemma journal_of_a_nested_run :
  nested (map (@step_of journal)
            [ Leaf (noting "a");
              Nest [ Leaf (noting "b"); Nest [ Leaf (noting "c") ] ];
              Leaf (noting "d") ])
    (fun j => Ret tt (j ++ ["body"])) []
  = Ret tt [ "enter a"; "enter b"; "enter c"; "enter d"; "body";
             "exit d"; "exit c"; "exit b"; "exit a" ].
Proof. reflexivity. Qed.

Unset Implicit Arguments.

(* ================================================================== *)
(** * Dictionaries *)

Lemma lookup_app {V} (d1 d2 : Py.dict V) k :
  Py.lookup (d1 ++ d2) k =
  match Py.lookup d1 k with Some v => Some v | None => Py.lookup d2 k end.
Proof.
  induction d1 as [|[k' v'] d1 IH]; simpl; [reflexivity|].
  destruct (String.eqb k' k); [reflexivity | exact IH].
Qed.

Lemma lookup_none_not_in {V} (d : Py.dict V) k :
  Py.lookup d k = None <-> ~ In k (Py.keys d).
Proof.
  induction d as [|[k' v'] d IH]; simpl.
  - tauto.
  - destruct (String.eqb_spec k' k) as [->|Hne].
    + split; [discriminate | intros H; exfalso; apply H; left; reflexivity].
    + rewrite IH. tauto.
Qed.

(** Binding a new key appends it. *)
Lemma set_fresh {V} (d : Py.dict V) k v :
  ~ In k (Py.keys d) -> Py.set d k v = d ++ [(k, v)].
Proof.
  induction d as [|[k' v'] d IH]; simpl; intros Hnot; [reflexivity|].
  destruct (String.eqb_spec k' k) as [->|Hne].
  - exfalso. apply Hnot. left. reflexivity.
  - rewrite IH; [reflexivity|]. intros Hin. apply Hnot. right. exact Hin.
Qed.

(** A dictionary rebuilt key by key from a dictionary keeps its order. *)
Lemma rebuild_dict {V U} (g : string * V -> U) (d : Py.dict V) :
  forall acc : Py.dict U,
    NoDup (Py.keys acc ++ Py.keys d) ->
    fold_left (fun acc' rv => Py.set acc' (fst rv) (g rv)) d acc
    = acc ++ map (fun rv => (fst rv, g rv)) d.
Proof.
  induction d as [|[k v] d IH]; intros acc Hnd; simpl.
  - rewrite app_nil_r. reflexivity.
  - assert (Hfresh : ~ In k (Py.keys acc)).
    { intros Hin. apply NoDup_remove_2 in Hnd. apply Hnd.
      apply in_or_app. left. exact Hin. }
    rewrite set_fresh by exact Hfresh. rewrite IH.
    + rewrite <- app_assoc. reflexivity.
    + unfold Py.keys in *. rewrite map_app. simpl. rewrite <- app_assoc.
      exact Hnd.
Qed.

Lemma role_images_of_dict (d : Py.dict (option properties)) :
  NoDup (Py.keys d) ->
  role_images_of (CDict d)
  = CDict (map (fun rp => (fst rp, Py.get (or_empty (snd rp)) "image_name" VNone)) d).
Proof.
  intros Hnd. unfold role_images_of.
  rewrite (@rebuild_dict _ _
             (fun rp => Py.get (or_empty (snd rp)) "image_name" VNone) d []).
  - reflexivity.
  - exact Hnd.
Qed.

(* ================================================================== *)
(** * Defaults *)



(* ================================================================== *)
(** * Loops over the targets of a step *)

Lemma for_each_stops {W X} (pre post : list X) (x : X) (body : X -> M W unit)
    (w w1 w2 : W) (e : exn) :
  for_each pre body w = Ret tt w1 ->
  body x w1 = Raise e w2 ->
  for_each (pre ++ x :: post) body w = Raise e w2.
Proof.
  intros Hpre Hx. rewrite for_each_app. unfold bind. rewrite Hpre.
  simpl. unfold bind. rewrite Hx. reflexivity.
Qed.

Lemma for_each_never_returns {W X} (xs : list X) (x : X) (body : X -> M W unit) :
  In x xs ->
  (forall w, returned (body x w) = false) ->
  forall w, returned (for_each xs body w) = false.
Proof.
  intros Hin Hx. induction xs as [|y xs IH]; intros w; [contradiction|].
  simpl. unfold bind. destruct Hin as [->|Hin].
  - specialize (Hx w). destruct (body x w); try reflexivity. discriminate.
  - destruct (body y w) as [|e w'|[] w']; try reflexivity. apply IH. exact Hin.
Qed.

Lemma for_each_returns_each {W X} (xs : list X) (body : X -> M W unit) :
  forall w w',
    for_each xs body w = Ret tt w' ->
    Forall (fun x => exists w1 w2, body x w1 = Ret tt w2) xs.
Proof.
  induction xs as [|x xs IH]; intros w w' H; [constructor|].
  simpl in H. unfold bind in H.
  destruct (body x w) as [|e w1|[] w1] eqn:Hx; try discriminate.
  constructor; [exists w, w1; exact Hx | exact (IH _ _ H)].
Qed.

Lemma for_each_always_returns {W X} (xs : list X) (body : X -> M W unit) :
  Forall (fun x => forall w, exists w', body x w = Ret tt w') xs ->
  forall w, exists w', for_each xs body w = Ret tt w'.
Proof.
  induction 1 as [|x xs Hx _ IH]; intros w; simpl.
  - exists w. reflexivity.
  - unfold bind. destruct (Hx w) as (w1 & ->). apply IH.
Qed.

(* ================================================================== *)
(** * mkfs and mount *)

(** A simple command runs for one tick and is logged, whatever its
    status. *)
Lemma remote_run_simple (ctx : context) (r : remote) (argv : list value) (w : world) :
  remote_run ctx r (Simple argv) w =
  let w' := World (S (clock w)) (log w ++ [(r, map Arg argv)]) in
  if simple_status ctx (clock w) r argv
  then Ret tt w'
  else Raise (RemoteCommandError r (map Arg argv)) w'.
Proof.
  unfold remote_run, logged. cbn [sh_eval tokens].
  destruct (simple_status ctx (clock w) r argv); reflexivity.
Qed.

(** C10.  When the properties of a target omit [fs_type], what mkfs does
    for the target is to run [sudo mkfs -t ext3] on the device of its
    image, on the remote of the target; the configuration [xfstests]
    builds for its workload from such properties carries [xfs]. *)
Theorem mkfs_defaults_to_ext3 :
  forall (ctx : context) (rl : role) (p : option properties),
    Py.mem (or_empty p) "fs_type" = false ->
    (forall w,
       mkfs_one ctx (rl, p) w =
       (r <- the_remote ctx rl ;;
        remote_run ctx r
          (Simple [ VStr "sudo"; VStr "mkfs"; VStr "-t"; VStr "ext3";
                    VStr ("/dev/rbd/rbd/" ++ Py.str (image_name_of rl p)) ])) w) /\
    Py.get (test_config (or_empty p)) "fs_type" VNone = VStr "xfs".
Proof.
  intros ctx rl p Hno. split.
  - intros w. unfold mkfs_one. cbn [fst snd].
    assert (Hfs : fs_type_of p = VStr "ext3").
    { unfold fs_type_of, Py.mem, Py.get in *.
      destruct (Py.lookup (or_empty p) "fs_type"); [discriminate | reflexivity]. }
    rewrite Hfs. reflexivity.
  - unfold test_config, Py.mem, Py.get in *.
    destruct (Py.lookup (or_empty p) "fs_type"); [discriminate | reflexivity].
Qed.

Lemma mkfs_defaults_to_ext3_witness :
  enter (mkfs quiet_ctx demo_config) demo_w0
  = Ret tt (World 1
              [("h1", [ Arg (VStr "sudo"); Arg (VStr "mkfs"); Arg (VStr "-t");
                        Arg (VStr "ext3");
                        Arg (VStr "/dev/rbd/rbd/testimage.client.0") ])]).
Proof.
  destruct (mkfs_defaults_to_ext3 quiet_ctx "client.0" None eq_refl)
    as [Hcmd _].
  cbn [mkfs enter demo_config items_of map for_each is_list_or_dict].
  unfold assert, bind at 1 2. unfold ret at 1. rewrite Hcmd. reflexivity.
Defined.

Lemma strip_client_prefix_ok (id_ : string) (w : world) :
  strip_client_prefix ("client." ++ id_)%string w = Ret id_ w.
Proof. destruct id_; reflexivity. Qed.

Lemma mount_one_needs_client (ctx : context) (rl : role) (image : value) :
  Py.startswith "client." rl = false ->
  forall w, returned (mount_one ctx (rl, image) w) = false.
Proof.
  intros Hno w. unfold mount_one, the_remote, bind. cbn [fst snd].
  destruct (only ctx rl) as [|r [|r' rest]]; try reflexivity.
  unfold ret, strip_client_prefix, bind, assert, PREFIX. rewrite Hno.
  reflexivity.
Qed.

(** C9.  The mount step requires every target to start with [client.].
    For a target that does not, all the step does is to look up the
    remote of the target and fail the assertion: no remote command is
    issued for it, the enter of a mount step holding the target can
    never succeed, and once the targets before it are mounted the enter
    fails on the assertion in the world those targets left.  For a
    target [client.<id>] the mount point is [/tmp/cephtest/mnt.<id>]:
    the enter runs [mkdir] and [mount] on it, the exit [umount] and
    [rmdir]. *)
Theorem mount_requires_client_prefix :
  forall (ctx : context) (rl : role) (image : value),
    (Py.startswith "client." rl = false ->
       (forall w,
          mount_one ctx (rl, image) w =
          (r <- the_remote ctx rl ;; raise (AssertionError EmptyString)) w) /\
       (forall (config : configuration value) (w : world),
          In (rl, image) (items_of VNone config) ->
          returned (enter (mount ctx config) w) = false) /\
       (forall (config : configuration value) (pre post : list (role * value))
               (r : remote) (w w1 : world),
          items_of VNone config = pre ++ (rl, image) :: post ->
          only ctx rl = [r] ->
          for_each pre (mount_one ctx) w = Ret tt w1 ->
          enter (mount ctx config) w = Raise (AssertionError EmptyString) w1)) /\
    (forall id_ : string, rl = ("client." ++ id_)%string ->
       let mnt := ("/tmp/cephtest/mnt." ++ id_)%string in
       (forall w,
          mount_one ctx (rl, image) w =
          (r <- the_remote ctx rl ;;
           remote_run ctx r (Simple (lits [ "mkdir"; "--"; mnt ])) ;;;
           remote_run ctx r
             (Simple (lits [ "sudo"; "mount";
                             dev_path (image_or_default rl image); mnt ]))) w) /\
       (forall w,
          umount_one ctx (rl, image) w =
          (r <- the_remote ctx rl ;;
           remote_run ctx r (Simple (lits [ "sudo"; "umount"; mnt ])) ;;;
           remote_run ctx r (Simple (lits [ "rmdir"; "--"; mnt ]))) w)).
Proof.
  intros ctx rl image. split.
  - intros Hno.
    assert (Hone : forall w,
               mount_one ctx (rl, image) w =
               (r <- the_remote ctx rl ;; raise (AssertionError EmptyString)) w).
    { intros w. unfold mount_one, bind. cbn [fst snd].
      destruct (the_remote ctx rl w) as [|e w'|r w']; try reflexivity.
      unfold strip_client_prefix, bind, assert, PREFIX. rewrite Hno.
      reflexivity. }
    split; [exact Hone|]. split.
    + intros config w Hin.
      assert (Hcfg : is_list_or_dict config = true)
        by (destruct config; [contradiction | reflexivity | reflexivity]).
      cbn [mount enter]. rewrite Hcfg. unfold assert, bind, ret.
      apply for_each_never_returns with (x := (rl, image)); [exact Hin|].
      apply mount_one_needs_client. exact Hno.
    + intros config pre post r w w1 Hitems Hr Hpre.
      assert (Hcfg : is_list_or_dict config = true).
      { destruct config; try reflexivity. simpl in Hitems.
        destruct pre; discriminate. }
      cbn [mount enter]. rewrite Hcfg, Hitems. unfold assert, bind, ret.
      apply for_each_stops with (w1 := w1); [exact Hpre|].
      rewrite Hone. unfold the_remote, bind. rewrite Hr. reflexivity.
  - intros id_ -> mnt. split; intros w.
    + unfold mount_one, bind. cbn [fst snd].
      destruct (the_remote ctx ("client." ++ id_)%string w) as [|e w'|r w'];
        try reflexivity.
      rewrite strip_client_prefix_ok. reflexivity.
    + unfold umount_one, bind. cbn [fst snd].
      destruct (the_remote ctx ("client." ++ id_)%string w) as [|e w'|r w'];
        try reflexivity.
      rewrite strip_client_prefix_ok. reflexivity.
Qed.

Lemma mount_requires_client_prefix_witness :
  enter (mount mixed_ctx (CList ["client.0"; "osd.0"])) demo_w0
  = Raise (AssertionError EmptyString)
      (World 2
         [("h1", map Arg (lits [ "mkdir"; "--"; "/tmp/cephtest/mnt.0" ]));
          ("h1", map Arg (lits [ "sudo"; "mount";
                                 "/dev/rbd/rbd/testimage.client.0";
                                 "/tmp/cephtest/mnt.0" ]))]).
Proof.
  destruct (mount_requires_client_prefix mixed_ctx "osd.0" VNone) as [Hfail _].
  destruct (Hfail eq_refl) as (_ & _ & Hassert).
  exact (Hassert (CList ["client.0"; "osd.0"]) [("client.0", VNone)] []
           "h3" demo_w0 _ eq_refl eq_refl eq_refl).
Defined.

(* ================================================================== *)
(** * Teardown failures of the module and mapping steps *)

Lemma sh_eval_AndIf (ctx : context) (r : remote) (a b : sh) (t : nat) :
  sh_eval ctx r (AndIf a b) t =
  match sh_eval ctx r a t with
  | Some (t1, true) => sh_eval ctx r b t1
  | o => o
  end.
Proof. reflexivity. Qed.

(** Whatever the status of the unload, [modprobe -r rbd || true] ends
    with status 0. *)
Lemma unload_never_fails (ctx : context) (r : remote) (w : world) :
  exists t,
    remote_run ctx r modprobe_unload w
    = Ret tt (World t (log w ++ [(r, tokens modprobe_unload)])).
Proof.
  unfold remote_run, logged, modprobe_unload. cbn [sh_eval].
  match goal with
  | |- context [simple_status ?c ?t ?h ?a] => destruct (simple_status c t h a)
  end; eexists; reflexivity.
Qed.

(** C7.  Once the kernel-module step is entered, its exit returns from
    every world and for every status of the unload commands: no unload
    error reaches the caller.  The exit of the mapping step, by
    contrast, raises the failure of an unmap command, in the world right
    after that command; and once the unmap and its wait are done, it
    returns whatever becomes of the removal of the udev rule file. *)
Theorem module_unload_errors_are_swallowed :
  forall (X : Type) (ctx : context) (config : configuration X) (w w' : world),
    enter (modprobe ctx config) w = Ret tt w' ->
    (forall w0, exists w1, exit (modprobe ctx config) w0 = Ret tt w1) /\
    (forall (pre post : list (role * value)) (rl : role) (image : value)
            (r : remote) (wa wb : world),
       only ctx rl = [r] ->
       for_each pre (unmap_one ctx) wa = Ret tt wb ->
       sh_eval ctx r (rbd_unmap_cmd (image_or_default rl image)) (clock wb)
         = Some (S (clock wb), false) ->
       let unmap := rbd_unmap (image_or_default rl image) in
       exit (dev_create ctx (CDict (pre ++ (rl, image) :: post))) wa
       = Raise (RemoteCommandError r (tokens unmap))
           (World (S (clock wb)) (log wb ++ [(r, tokens unmap)]))) /\
    (forall (rl : role) (image : value) (r : remote) (wa wb : world),
       only ctx rl = [r] ->
       remote_run ctx r (rbd_unmap (image_or_default rl image)) wa = Ret tt wb ->
       unmap_one ctx (rl, image) wa
       = Ret tt (World (S (clock wb)) (log wb ++ [(r, tokens remove_udev_rule)]))).
Proof.
  intros X ctx config w w' Henter. split; [|split].
  - cbn [modprobe enter exit] in *. unfold bind in Henter. intros w0.
    unfold bind.
    destruct config as [|roles|d]; cbn [iterate] in *; unfold raise, ret in *;
      try discriminate.
    + apply for_each_always_returns.
      apply for_each_returns_each in Henter.
      eapply Forall_impl; [|exact Henter].
      intros rl (w1 & w2 & Hrl) wx. unfold the_remote, bind in *.
      destruct (only ctx rl) as [|r [|r' rest]]; try discriminate.
      unfold ret. destruct (unload_never_fails ctx r wx) as (t & ->).
      eexists. reflexivity.
    + apply for_each_always_returns.
      apply for_each_returns_each in Henter.
      eapply Forall_impl; [|exact Henter].
      intros rl (w1 & w2 & Hrl) wx. unfold the_remote, bind in *.
      destruct (only ctx rl) as [|r [|r' rest]]; try discriminate.
      unfold ret. destruct (unload_never_fails ctx r wx) as (t & ->).
      eexists. reflexivity.
  - intros pre post rl image r wa wb Hr Hpre Hunmap unmap.
    cbn [dev_create exit items_of].
    apply for_each_stops with (w1 := wb); [exact Hpre|].
    unfold unmap_one, the_remote, bind. cbn [fst snd]. rewrite Hr. unfold ret.
    subst unmap.
    assert (Hs : sh_eval ctx r (rbd_unmap (image_or_default rl image)) (clock wb)
                 = Some (S (clock wb), false)).
    { unfold rbd_unmap. rewrite sh_eval_AndIf, Hunmap. reflexivity. }
    unfold remote_run, logged. rewrite Hs. reflexivity.
  - intros rl image r wa wb Hr Hrun.
    unfold unmap_one, the_remote, bind. cbn [fst snd]. rewrite Hr. unfold ret.
    rewrite Hrun. reflexivity.
Qed.

Lemma module_unload_errors_are_swallowed_witness :
  (exists w1,
     exit (modprobe busy_ctx demo_config)
       (World 1 [("h1", tokens modprobe_load)]) = Ret tt w1) /\
  exit (dev_create busy_ctx (CDict [("client.0", VNone)])) demo_w0
  = Raise (RemoteCommandError "h1" (tokens (rbd_unmap (VStr "testimage.client.0"))))
      (World 1 [("h1", tokens (rbd_unmap (VStr "testimage.client.0")))]).
Proof.
  destruct (@module_unload_errors_are_swallowed (option properties) busy_ctx
              demo_config demo_w0 (World 1 [("h1", tokens modprobe_load)])
              eq_refl) as (Hunload & Hunmap & _).
  split.
  - apply Hunload.
  - exact (Hunmap [] [] "client.0" VNone "h1" demo_w0 demo_w0
             eq_refl eq_refl eq_refl).
Defined.

(* ================================================================== *)
(** * The image step with several targets *)

(** The targets of the image step are not provisioned independently:
    when the creation for the first of two targets fails, none is
    attempted for the second; when the creation for the second fails,
    the image created for the first is not removed. *)
Lemma image_targets_are_not_independent :
  (exists e w',
     nested [create_image (no_image_ctx "testimage.client.0") two_clients]
       (ret tt) demo_w0 = Raise e w' /\
     ~ In ("h2", tokens (rbd_create (VStr "testimage.client.1")
                           (VInt 10240) (VInt 1))) (log w')) /\
  (exists e w',
     nested [create_image (no_image_ctx "testimage.client.1") two_clients]
       (ret tt) demo_w0 = Raise e w' /\
     In ("h1", tokens (rbd_create (VStr "testimage.client.0")
                         (VInt 10240) (VInt 1))) (log w') /\
     ~ In ("h1", tokens (rbd_rm (VStr "testimage.client.0"))) (log w')).
Proof.
  split.
  - eexists. eexists. split; [vm_compute; reflexivity|].
    vm_compute. intros [H|[]]. discriminate H.
  - eexists. eexists. split; [vm_compute; reflexivity|]. split.
    + vm_compute. left. reflexivity.
    + vm_compute. intros [H|[H|[]]]; discriminate H.
Qed.

(** C3, as the module has it.  The image step creates the images of its
    targets in order.  When the creation for a target fails after those
    before it succeeded, the enter of the step fails with that failure
    in the world right after the failing attempt, whatever targets
    follow: none of them is attempted.  A stack holding the step stops
    in that same world: the exit of the step does not run, no image is
    removed. *)
Theorem image_step_stops_at_first_failure :
  forall (ctx : context) (config : configuration (option properties))
         (pre post : list (role * option properties))
         (rp : role * option properties)
         (A : Type) (body : M world A) (w w1 w2 : world) (e : exn),
    items_of None config = pre ++ rp :: post ->
    for_each pre (create_one ctx) w = Ret tt w1 ->
    create_one ctx rp w1 = Raise e w2 ->
    enter (create_image ctx config) w = Raise e w2 /\
    nested [create_image ctx config] body w = Raise e w2 /\
    (log w2 = log w1 \/
     exists r,
       log w2 = log w1 ++
                [(r, tokens (rbd_create (image_name_of (fst rp) (snd rp))
                               (image_size_of (snd rp))
                               (image_format_of (snd rp))))]).
Proof.
  intros ctx config pre post rp A body w w1 w2 e Hitems Hpre Hrp.
  assert (Hcfg : is_list_or_dict config = true).
  { destruct config; try reflexivity. simpl in Hitems.
    destruct pre; discriminate. }
  assert (Henter : enter (create_image ctx config) w = Raise e w2).
  { cbn [create_image enter]. rewrite Hcfg, Hitems. unfold assert, bind, ret.
    apply for_each_stops with (w1 := w1); assumption. }
  split; [exact Henter|]. split.
  - exact (@nested_stops_at_failing_enter world A []
             (create_image ctx config) [] body w w w2 e eq_refl Henter).
  - unfold create_one, the_remote, bind in Hrp.
    destruct (only ctx (fst rp)) as [|r [|r' rest]]; unfold raise, ret in Hrp.
    + injection Hrp as _ <-. left. reflexivity.
    + right. exists r. unfold rbd_create in *.
      rewrite remote_run_simple in Hrp. cbv zeta in Hrp.
      match type of Hrp with
      | context [simple_status ?c ?t ?h ?a] => destruct (simple_status c t h a)
      end; [discriminate|].
      injection Hrp as _ <-. reflexivity.
    + injection Hrp as _ <-. left. reflexivity.
Qed.

Lemma image_step_stops_at_first_failure_witness :
  let ctx := no_image_ctx "testimage.client.1" in
  let created := World 1 [("h1", tokens (rbd_create (VStr "testimage.client.0")
                                           (VInt 10240) (VInt 1)))] in
  let failed := World 2 [("h1", tokens (rbd_create (VStr "testimage.client.0")
                                          (VInt 10240) (VInt 1)));
                         ("h2", tokens (rbd_create (VStr "testimage.client.1")
                                          (VInt 10240) (VInt 1)))] in
  let e := RemoteCommandError "h2"
             (tokens (rbd_create (VStr "testimage.client.1") (VInt 10240) (VInt 1))) in
  for_each [("client.0", None)] (create_one ctx) demo_w0 = Ret tt created /\
  create_one ctx ("client.1", None) created = Raise e failed /\
  enter (create_image ctx two_clients) demo_w0 = Raise e failed /\
  nested [create_image ctx two_clients] (ret tt) demo_w0 = Raise e failed.
Proof.
  intros ctx created failed e.
  assert (Hpre : for_each [("client.0", None)] (create_one ctx) demo_w0
                 = Ret tt created) by (vm_compute; reflexivity).
  assert (Hrp : create_one ctx ("client.1", None) created = Raise e failed)
    by (vm_compute; reflexivity).
  destruct (@image_step_stops_at_first_failure ctx two_clients
              [("client.0", None)] [] ("client.1", None) unit (ret tt)
              demo_w0 created failed e eq_refl Hpre Hrp)
    as (Henter & Hrun & _).
  repeat split; assumption.
Defined.

(* ================================================================== *)
(** * The plan check of xfstests *)

Lemma mem_set {V} (d : Py.dict V) (k k' : string) (v : V) :
  Py.mem (Py.set d k v) k' = (String.eqb k k' || Py.mem d k')%bool.
Proof.
  unfold Py.mem. induction d as [|[k0 v0] d IH]; simpl.
  - destruct (String.eqb k k'); reflexivity.
  - destruct (String.eqb_spec k0 k) as [->|Hne]; simpl.
    + destruct (String.eqb k k'); reflexivity.
    + destruct (String.eqb k0 k'); [|exact IH].
      rewrite orb_true_r. reflexivity.
Qed.

(** Claiming the hosts of a role leaves the world alone; it keeps what
    was claimed and claims every host of the role, or it finds one of
    them claimed and raises the conflict. *)
Lemma claim_hosts_outcome (rl : role) (remotes : list (remote * list role)) :
  forall running w,
    (exists running',
        claim_hosts rl remotes running w = Ret running' w /\
        (forall h, Py.mem running h = true -> Py.mem running' h = true) /\
        (forall h roles, In (h, roles) remotes -> has_role rl roles = true ->
                         Py.mem running' h = true)) \/
    claim_hosts rl remotes running w = Raise ConflictError w.
Proof.
  induction remotes as [|[host roles0] rest IH]; intros running w; simpl.
  - left. exists running. split; [reflexivity|]. split; [tauto|].
    intros h roles [].
  - destruct (has_role rl roles0) eqn:Hrole.
    + unfold bind, assert. destruct (Py.mem running host) eqn:Hmem; simpl.
      * right. reflexivity.
      * destruct (IH (Py.set running host true) w)
          as [(running' & Hret & Hkeep & Hall)|Hraise].
        -- left. exists running'. split; [exact Hret|]. split.
           ++ intros h Hh. apply Hkeep. rewrite mem_set, Hh.
              apply orb_true_r.
           ++ intros h roles [Heq|Hin] Hr.
              ** injection Heq as -> ->. apply Hkeep.
                 rewrite mem_set, String.eqb_refl. reflexivity.
              ** exact (Hall h roles Hin Hr).
        -- right. exact Hraise.
    + destruct (IH running w) as [(running' & Hret & Hkeep & Hall)|Hraise].
      * left. exists running'. split; [exact Hret|]. split; [exact Hkeep|].
        intros h roles [Heq|Hin] Hr.
        -- injection Heq as -> ->. rewrite Hrole in Hr. discriminate.
        -- exact (Hall h roles Hin Hr).
      * right. exact Hraise.
Qed.

(** A role one of whose hosts is claimed already cannot claim it. *)
Lemma claim_hosts_conflict (rl : role) (remotes : list (remote * list role))
    (host : remote) (roles : list role) :
  In (host, roles) remotes -> has_role rl roles = true ->
  forall running w,
    Py.mem running host = true ->
    claim_hosts rl remotes running w = Raise ConflictError w.
Proof.
  intros Hin Hrole. induction remotes as [|[h0 roles0] rest IH];
    intros running w Hmem; [contradiction|]. simpl.
  destruct Hin as [Heq|Hin].
  - injection Heq as -> ->. rewrite Hrole. unfold bind, assert.
    rewrite Hmem. reflexivity.
  - destruct (has_role rl roles0).
    + unfold bind, assert. destruct (Py.mem running h0); simpl.
      * reflexivity.
      * apply (IH Hin). rewrite mem_set, Hmem. apply orb_true_r.
    + exact (IH Hin running w Hmem).
Qed.

Lemma check_runs_cons (ctx : context) (rl : role) (p : option properties)
    (rest : list (role * option properties)) (running : Py.dict bool) (w : world) :
  check_runs ctx ((rl, p) :: rest) running w =
  if Py.startswith "client." rl then
    match claim_hosts rl (cluster ctx) running w with
    | Diverge => Diverge
    | Raise e w' => Raise e w'
    | Ret running' w' => check_runs ctx rest running' w'
    end
  else Raise ConfigError_not_client w.
Proof.
  simpl. unfold bind, assert.
  destruct (Py.startswith "client." rl); reflexivity.
Qed.

(** The check leaves the world alone, and fails in one of two ways. *)
Lemma check_runs_outcome (ctx : context) (runs : list (role * option properties)) :
  forall running w,
    check_runs ctx runs running w = Ret tt w \/
    check_runs ctx runs running w = Raise ConflictError w \/
    (check_runs ctx runs running w = Raise ConfigError_not_client w /\
     exists run, In run runs /\ Py.startswith "client." (fst run) = false).
Proof.
  induction runs as [|[rl p] rest IH]; intros running w.
  - left. reflexivity.
  - rewrite check_runs_cons.
    destruct (Py.startswith "client." rl) eqn:Hclient.
    + destruct (claim_hosts_outcome rl (cluster ctx) running w)
        as [(running' & -> & _) | ->].
      * destruct (IH running' w) as [H|[H|(H & run & Hin & Hrun)]].
        -- left. exact H.
        -- right. left. exact H.
        -- right. right. split; [exact H|]. exists run. split; [right|]; assumption.
      * right. left. reflexivity.
    + right. right. split; [reflexivity|]. exists (rl, p).
      split; [left; reflexivity | exact Hclient].
Qed.

(** With a host claimed and a later run on that host, the check cannot
    pass. *)
Lemma check_runs_claimed (ctx : context) (host : remote) (roles : list role)
    (rl : role) (p : option properties) :
  In (host, roles) (cluster ctx) -> has_role rl roles = true ->
  forall runs running w,
    In (rl, p) runs ->
    Py.mem running host = true ->
    returned (check_runs ctx runs running w) = false.
Proof.
  intros Hhost Hrole runs. induction runs as [|[rl0 p0] rest IH];
    intros running w Hin Hmem; [contradiction|].
  rewrite check_runs_cons.
  destruct (Py.startswith "client." rl0); [|reflexivity].
  destruct Hin as [Heq|Hin].
  - injection Heq as -> ->.
    rewrite (@claim_hosts_conflict rl (cluster ctx) host roles Hhost Hrole running w Hmem).
    reflexivity.
  - destruct (claim_hosts_outcome rl0 (cluster ctx) running w)
      as [(running' & -> & Hkeep & _) | ->]; [|reflexivity].
    apply IH; [exact Hin | apply Hkeep; exact Hmem].
Qed.

(** Two runs on one host: the check cannot pass. *)
Lemma check_runs_shared_host (ctx : context) (host : remote) (roles : list role)
    (rl1 rl2 : role) (p1 p2 : option properties)
    (pre mid post : list (role * option properties)) :
  In (host, roles) (cluster ctx) ->
  has_role rl1 roles = true -> has_role rl2 roles = true ->
  forall running w,
    returned (check_runs ctx (pre ++ (rl1, p1) :: mid ++ (rl2, p2) :: post)
                running w) = false.
Proof.
  intros Hhost H1 H2. induction pre as [|[rl0 p0] pre IH]; intros running w;
    cbn [app]; rewrite check_runs_cons.
  - destruct (Py.startswith "client." rl1); [|reflexivity].
    destruct (claim_hosts_outcome rl1 (cluster ctx) running w)
      as [(running' & -> & _ & Hall) | ->]; [|reflexivity].
    apply (@check_runs_claimed ctx host roles rl2 p2 Hhost H2).
    + apply in_or_app. right. left. reflexivity.
    + exact (Hall host roles Hhost H1).
  - destruct (Py.startswith "client." rl0); [|reflexivity].
    destruct (claim_hosts_outcome rl0 (cluster ctx) running w)
      as [(running' & -> & _) | ->]; [|reflexivity].
    apply IH.
Qed.

Lemma or_all_is_list_or_dict (config : configuration (option properties)) :
  is_list_or_dict (or_all config) = true.
Proof. destruct config; reflexivity. Qed.

(** Two run targets on one host do not always make the plan check fail
    with [ConflictError]: with a client and a role that is no client on
    one host, the check fails on its client-only assertion. *)
Lemma shared_host_can_fail_the_client_check :
  In ("h1", ["client.0"; "osd.0"]) (cluster mixed_host_ctx) /\
  has_role "client.0" ["client.0"; "osd.0"] = true /\
  has_role "osd.0" ["client.0"; "osd.0"] = true /\
  xfstests_runs mixed_host_ctx (CList ["client.0"; "osd.0"])
  = [("client.0", None); ("osd.0", None)] /\
  xfstests_enter mixed_host_ctx (CList ["client.0"; "osd.0"]) demo_w0
  = Raise ConfigError_not_client demo_w0 /\
  xfstests_enter mixed_host_ctx (CList ["client.0"; "osd.0"]) demo_w0
  <> Raise ConflictError demo_w0.
Proof.
  split; [left; reflexivity|].
  split; [reflexivity|]. split; [reflexivity|]. split; [reflexivity|].
  split; [reflexivity|].
  intros H. vm_compute in H. discriminate H.
Qed.

(** C5, as the module has it.  For every configuration of xfstests with
    two run targets on one host, [xfstests] fails in its plan check, in
    the world it started from: no remote command has run and no step is
    entered.  The failure is the one-instance-per-host assertion,
    [ConflictError], when every run target is a client; otherwise it is
    that assertion or the client-only assertion of the same check. *)
Theorem xfstests_rejects_a_shared_host :
  forall (ctx : context) (config : configuration (option properties))
         (pre mid post : list (role * option properties))
         (rl1 rl2 : role) (p1 p2 : option properties)
         (host : remote) (roles : list role) (w : world),
    xfstests_runs ctx config = pre ++ (rl1, p1) :: mid ++ (rl2, p2) :: post ->
    In (host, roles) (cluster ctx) ->
    has_role rl1 roles = true ->
    has_role rl2 roles = true ->
    (xfstests_enter ctx config w = Raise ConflictError w \/
     xfstests_enter ctx config w = Raise ConfigError_not_client w) /\
    (Forall (fun run => Py.startswith "client." (fst run) = true)
            (xfstests_runs ctx config) ->
     xfstests_enter ctx config w = Raise ConflictError w).
Proof.
  intros ctx config pre mid post rl1 rl2 p1 p2 host roles w Hruns Hhost H1 H2.
  pose proof (@check_runs_shared_host ctx host roles rl1 rl2 p1 p2 pre mid post
                Hhost H1 H2 [] w)
    as Hnot.
  rewrite <- Hruns in Hnot.
  unfold xfstests_enter. rewrite or_all_is_list_or_dict.
  unfold assert, bind, ret.
  destruct (check_runs_outcome ctx (xfstests_runs ctx config) [] w)
    as [H|[H|(H & run & Hin & Hrun)]]; rewrite H in *.
  - discriminate.
  - split; [left; reflexivity | intros _; reflexivity].
  - split; [right; reflexivity|].
    intros Hall. rewrite Forall_forall in Hall.
    specialize (Hall run Hin). cbv beta in Hall.
    exfalso. exact (eq_true_false_abs _ Hall Hrun).
Qed.

Lemma xfstests_rejects_a_shared_host_witness :
  let ctx := {| cluster := [("h1", ["client.0"; "client.1"])];
                status := fun _ _ _ => true;
                output := fun _ _ _ => EmptyString;
                fuel := 1;
                write_secret_file := fun _ _ _ => ret tt |} in
  xfstests_enter ctx CNone demo_w0 = Raise ConflictError demo_w0.
Proof.
  intros ctx.
  destruct (@xfstests_rejects_a_shared_host ctx CNone [] [] []
              "client.0" "client.1" None None "h1" ["client.0"; "client.1"]
              demo_w0 eq_refl (or_introl eq_refl) eq_refl eq_refl)
    as [_ Hconflict].
  apply Hconflict. repeat constructor.
Defined.

(* ================================================================== *)
(** * The configuration task hands to its steps *)

Lemma clients_are_not_all (ctx : context) : ~ In "all" (clients ctx).
Proof.
  unfold clients. intros Hin. apply filter_In in Hin.
  destruct Hin as [_ Hprefix]. discriminate Hprefix.
Qed.

Lemma keys_set_subset {V} (d : Py.dict V) (k k' : string) (v : V) :
  In k' (Py.keys (Py.set d k v)) -> k' = k \/ In k' (Py.keys d).
Proof.
  induction d as [|[k0 v0] d IH]; simpl.
  - intros [<-|[]]. left. reflexivity.
  - destruct (String.eqb k0 k); simpl.
    + intros [<-|Hin]; right; [left; reflexivity | right; exact Hin].
    + intros [<-|Hin]; [right; left; reflexivity|].
      destruct (IH Hin) as [->|Hd]; [left; reflexivity | right; right; exact Hd].
Qed.

Lemma keys_of_expansion {V} (cs : list role) (p : V) :
  forall (acc : Py.dict V) (k : string),
    In k (Py.keys (fold_left (fun norm c => Py.set norm c p) cs acc)) ->
    In k cs \/ In k (Py.keys acc).
Proof.
  induction cs as [|c cs IH]; intros acc k Hin; simpl in *.
  - right. exact Hin.
  - destruct (IH _ _ Hin) as [Hcs|Hset]; [left; right; exact Hcs|].
    destruct (keys_set_subset _ _ _ _ Hset) as [->|Hacc];
      [left; left; reflexivity | right; exact Hacc].
Qed.

(** The alias is gone once it is expanded. *)
Lemma no_alias_after_expansion {V} (ctx : context) (d : Py.dict V) :
  Py.lookup (replace_all_with_clients ctx d) "all" = None.
Proof.
  unfold replace_all_with_clients.
  destruct (Py.lookup d "all") as [p|] eqn:Hall; [|exact Hall].
  apply lookup_none_not_in. intros Hin.
  destruct (keys_of_expansion _ _ _ _ Hin) as [Hc|[]].
  exact (clients_are_not_all ctx Hc).
Qed.

Lemma replace_all_without_alias {V} (ctx : context) (d : Py.dict V) :
  Py.lookup d "all" = None -> replace_all_with_clients ctx d = d.
Proof. unfold replace_all_with_clients. intros ->. reflexivity. Qed.

(** What [task] hands to its steps is either a list of roles it was
    given or a dictionary without the alias. *)
Lemma norm_config_of_shape (ctx : context) (config : configuration (option properties)) :
  (exists roles, config = CList roles /\ norm_config_of ctx config = CList roles) \/
  (exists d, norm_config_of ctx config = CDict d /\ Py.lookup d "all" = None).
Proof.
  destruct config as [|roles|d]; unfold norm_config_of; cbn [or_all].
  - right. eexists. split; [reflexivity | apply no_alias_after_expansion].
  - left. exists roles. split; reflexivity.
  - right. eexists. split; [reflexivity | apply no_alias_after_expansion].
Qed.

Lemma norm_config_of_dict (ctx : context) (d : Py.dict (option properties)) :
  Py.lookup d "all" = None -> norm_config_of ctx (CDict d) = CDict d.
Proof.
  intros Hno. unfold norm_config_of. cbn [or_all].
  rewrite replace_all_without_alias by exact Hno. reflexivity.
Qed.

(* ================================================================== *)
(** * The poll loops of the mapping step *)

(** A loop whose condition always holds is still running, whatever the
    number of probes it is given. *)
Lemma while_loop_spins (cond body : nat -> option (nat * bool)) :
  (forall t, exists t1, cond t = Some (t1, true)) ->
  forall n t last, while_loop cond body n t last = None.
Proof.
  intros Hcond. induction n as [|n IH]; intros t last; simpl.
  - reflexivity.
  - destruct (Hcond t) as (t1 & ->).
    destruct (body t1) as [[t2 st]|]; [apply IH | reflexivity].
Qed.

(** A loop whose condition holds at its first [k] probes and fails at
    the next one ends there, given more than [k] probes. *)
Lemma while_loop_ends (cond body : nat -> option (nat * bool)) :
  (forall t, body t = Some (S t, true)) ->
  forall k n t,
    k < n ->
    (forall i, i < k -> cond (t + 2 * i) = Some (S (t + 2 * i), true)) ->
    cond (t + 2 * k) = Some (S (t + 2 * k), false) ->
    while_loop cond body n t true = Some (S (t + 2 * k), true).
Proof.
  intros Hbody. induction k as [|k IH]; intros n t Hlt Hpre Hend.
  - replace (t + 2 * 0) with t in * by lia.
    destruct n as [|n]; [lia|]. cbn [while_loop]. rewrite Hend. reflexivity.
  - destruct n as [|n]; [lia|]. cbn [while_loop].
    pose proof (Hpre 0 ltac:(lia)) as H0.
    replace (t + 2 * 0) with t in H0 by lia. rewrite H0, Hbody.
    replace (t + 2 * S k) with (S (S t) + 2 * k) by lia.
    apply IH.
    + lia.
    + intros i Hi. replace (S (S t) + 2 * i) with (t + 2 * S i) by lia.
      apply Hpre. lia.
    + replace (S (S t) + 2 * k) with (t + 2 * S k) by lia. exact Hend.
Qed.

Lemma sh_eval_While (ctx : context) (r : remote) (c b : sh) (t : nat) :
  sh_eval ctx r (While c b) t
  = while_loop (sh_eval ctx r c) (sh_eval ctx r b) (fuel ctx) t true.
Proof. reflexivity. Qed.

(** A command followed by a wait that never ends never returns. *)
Lemma remote_run_spins (ctx : context) (r : remote) (cmd probe : sh) (w : world) :
  sh_eval ctx r cmd (clock w) = Some (S (clock w), true) ->
  (forall t, sh_eval ctx r probe t = Some (S t, true)) ->
  remote_run ctx r (AndIf cmd (While probe sleep_1)) w = Diverge.
Proof.
  intros Hcmd Hprobe. unfold remote_run.
  rewrite sh_eval_AndIf, Hcmd, sh_eval_While.
  rewrite while_loop_spins; [reflexivity|].
  intros t. exists (S t). apply Hprobe.
Qed.

(** A command followed by a wait that ends at its probe [k] returns
    then. *)
Lemma remote_run_waits (ctx : context) (r : remote) (cmd probe : sh)
    (w : world) (k : nat) :
  sh_eval ctx r cmd (clock w) = Some (S (clock w), true) ->
  k < fuel ctx ->
  (forall t, sh_eval ctx r sleep_1 t = Some (S t, true)) ->
  (forall i, i < k ->
     sh_eval ctx r probe (S (clock w) + 2 * i)
     = Some (S (S (clock w) + 2 * i), true)) ->
  sh_eval ctx r probe (S (clock w) + 2 * k)
  = Some (S (S (clock w) + 2 * k), false) ->
  remote_run ctx r (AndIf cmd (While probe sleep_1)) w
  = Ret tt (World (S (S (clock w) + 2 * k))
              (log w ++ [(r, tokens (AndIf cmd (While probe sleep_1)))])).
Proof.
  intros Hcmd Hfuel Hsleep Hpre Hend. unfold remote_run, logged.
  rewrite sh_eval_AndIf, Hcmd, sh_eval_While.
  rewrite (while_loop_ends _ _ Hsleep k (fuel ctx) (S (clock w)) Hfuel Hpre Hend).
  reflexivity.
Qed.

Lemma unmap_one_spins (ctx : context) (rl : role) (image : value) (r : remote)
    (w : world) :
  only ctx rl = [r] ->
  sh_eval ctx r (rbd_unmap_cmd (image_or_default rl image)) (clock w)
    = Some (S (clock w), true) ->
  (forall t, sh_eval ctx r (symlink_present (image_or_default rl image)) t
             = Some (S t, true)) ->
  exit (dev_create ctx (CDict [(rl, image)])) w = Diverge.
Proof.
  intros Hr Hcmd Hprobe. cbn [dev_create exit items_of for_each].
  unfold bind, unmap_one, the_remote. cbn [fst snd]. rewrite Hr. unfold ret.
  unfold bind. unfold rbd_unmap.
  rewrite (remote_run_spins ctx r _ _ w Hcmd Hprobe). reflexivity.
Qed.

Lemma map_one_spins (ctx : context) (rl : role) (image : value) (r : remote)
    (w w1 : world) :
  only ctx rl = [r] ->
  map_prelude ctx r rl w = Ret tt w1 ->
  sh_eval ctx r
    (rbd_map_cmd rl ("/tmp/cephtest/data/" ++ rl ++ ".secret")%string
       (image_or_default rl image)) (clock w1)
    = Some (S (clock w1), true) ->
  (forall t, sh_eval ctx r (symlink_missing (image_or_default rl image)) t
             = Some (S t, true)) ->
  enter (dev_create ctx (CDict [(rl, image)])) w = Diverge.
Proof.
  intros Hr Hpre Hcmd Hprobe.
  cbn [dev_create enter items_of for_each is_list_or_dict].
  unfold assert, map_one, the_remote. cbn [fst snd]. rewrite Hr.
  unfold map_prelude in Hpre. unfold bind, ret in *.
  destruct (remote_run ctx r write_udev_rule w) as [|e wa|[] wa];
    try discriminate.
  destruct (remote_run ctx r install_udev_rule wa) as [|e wb|[] wb];
    try discriminate.
  rewrite Hpre. unfold rbd_map.
  rewrite (remote_run_spins ctx r _ _ w1 Hcmd Hprobe). reflexivity.
Qed.

(** The exit of the mapping step raises what [remote.run] raises or the
    failure to find the remote of a role, nothing else. *)
Lemma unmap_raises (ctx : context) (ris : list (role * value)) :
  forall w e w',
    for_each ris (unmap_one ctx) w = Raise e w' ->
    e = ValueError \/ exists r args, e = RemoteCommandError r args.
Proof.
  induction ris as [|[rl image] ris IH]; intros w e w' H; simpl in H.
  - discriminate.
  - unfold bind at 1 in H. unfold unmap_one at 1 in H.
    unfold the_remote, bind in H. cbn [fst snd] in H.
    destruct (only ctx rl) as [|r [|r' rest]]; unfold raise, ret in H.
    + injection H as <- _. left. reflexivity.
    + unfold remote_run at 1 in H.
      destruct (sh_eval ctx r (rbd_unmap (image_or_default rl image)) (clock w))
        as [[t [|]]|]; try discriminate.
      * unfold remote_run_nowait in H. exact (IH _ _ _ H).
      * injection H as <- _. right. eexists. eexists. reflexivity.
    + injection H as <- _. left. reflexivity.
Qed.

(** The wait of the exit has no bound: with a symlink that never
    disappears, the exit of the mapping step raises nothing and is still
    waiting, whatever the number of probes the loop is given. *)
Lemma unmap_wait_has_no_timeout :
  ~ exists n,
      exit (dev_create (stuck_ctx n) (CDict [("client.0", VNone)])) demo_w0
      <> Diverge.
Proof.
  intros [n H]. apply H.
  apply (unmap_one_spins (stuck_ctx n) "client.0" VNone "h1" demo_w0).
  - reflexivity.
  - reflexivity.
  - intros t. reflexivity.
Qed.

(** C4, as the module has it.  The waits of the mapping step have no
    bound.  On exit, after a successful unmap, the exit is still waiting
    for every bound on the probes when the symlink never disappears;
    when probe [k] is the first to find it gone, the exit returns after
    [k] sleeps, the removal of the rule file started.  On enter, after a
    successful map, the enter is still waiting for every bound when the
    symlink never appears.  The exit never raises [DeviceTimeoutError]. *)
Theorem mapping_waits_are_unbounded :
  forall (ctx : context) (rl : role) (image : value) (r : remote) (w : world),
    only ctx rl = [r] ->
    let img := image_or_default rl image in
    let one := CDict [(rl, image)] in
    (sh_eval ctx r (rbd_unmap_cmd img) (clock w) = Some (S (clock w), true) ->
     (forall t, sh_eval ctx r (symlink_present img) t = Some (S t, true)) ->
     exit (dev_create ctx one) w = Diverge) /\
    (forall k,
       sh_eval ctx r (rbd_unmap_cmd img) (clock w) = Some (S (clock w), true) ->
       k < fuel ctx ->
       (forall t, sh_eval ctx r sleep_1 t = Some (S t, true)) ->
       (forall i, i < k ->
          sh_eval ctx r (symlink_present img) (S (clock w) + 2 * i)
          = Some (S (S (clock w) + 2 * i), true)) ->
       sh_eval ctx r (symlink_present img) (S (clock w) + 2 * k)
       = Some (S (S (clock w) + 2 * k), false) ->
       exit (dev_create ctx one) w
       = Ret tt (World (S (S (S (clock w) + 2 * k)))
                   (log w ++ [(r, tokens (rbd_unmap img));
                              (r, tokens remove_udev_rule)]))) /\
    (forall w1,
       map_prelude ctx r rl w = Ret tt w1 ->
       sh_eval ctx r
         (rbd_map_cmd rl ("/tmp/cephtest/data/" ++ rl ++ ".secret")%string img)
         (clock w1)
       = Some (S (clock w1), true) ->
       (forall t, sh_eval ctx r (symlink_missing img) t = Some (S t, true)) ->
       enter (dev_create ctx one) w = Diverge) /\
    (forall (config : configuration value) (w0 : world),
       raised (exit (dev_create ctx config) w0) <> Some DeviceTimeoutError).
Proof.
  intros ctx rl image r w Hr img one. split; [|split; [|split]].
  - intros Hcmd Hprobe. exact (unmap_one_spins ctx rl image r w Hr Hcmd Hprobe).
  - intros k Hcmd Hfuel Hsleep Hpre Hend.
    cbn [one dev_create exit items_of for_each].
    unfold bind, unmap_one, the_remote. cbn [fst snd]. rewrite Hr. unfold ret.
    unfold bind. fold img. unfold rbd_unmap.
    rewrite (remote_run_waits ctx r _ _ w k Hcmd Hfuel Hsleep Hpre Hend).
    unfold remote_run_nowait, logged. cbn [clock log].
    rewrite <- app_assoc. reflexivity.
  - intros w1 Hpre Hcmd Hprobe.
    exact (map_one_spins ctx rl image r w w1 Hr Hpre Hcmd Hprobe).
  - intros config w0 Hraised. cbn [dev_create exit] in Hraised.
    destruct (for_each (items_of VNone config) (unmap_one ctx) w0)
      as [|e w'|[] w'] eqn:Hexit; try discriminate.
    simpl in Hraised. injection Hraised as ->.
    destruct (unmap_raises ctx _ _ _ _ Hexit) as [He|(r0 & args & He)];
      discriminate He.
Qed.

Lemma mapping_waits_are_unbounded_witness :
  exit (dev_create slow_ctx (CDict [("client.0", VNone)])) demo_w0
  = Ret tt (World 7 [("h1", tokens (rbd_unmap (VStr "testimage.client.0")));
                     ("h1", tokens remove_udev_rule)]).
Proof.
  destruct (mapping_waits_are_unbounded slow_ctx "client.0" VNone "h1" demo_w0
              eq_refl) as (_ & Hends & _).
  apply (Hends 2).
  - reflexivity.
  - repeat constructor.
  - intros t. reflexivity.
  - intros [|[|i]] Hi; [reflexivity | reflexivity | lia].
  - reflexivity.
Defined.

(* ================================================================== *)
(** * Names: roles, images, mount points *)

Lemma append_cancel (p a b : string) :
  (p ++ a)%string = (p ++ b)%string -> a = b.
Proof.
  induction p as [|c p IH]; simpl; intros H; [exact H|].
  injection H as H. exact (IH H).
Qed.

(** What [startswith] accepts is the prefix followed by the rest. *)
Lemma startswith_drop (p s : string) :
  Py.startswith p s = true ->
  (p ++ Py.drop (String.length p) s)%string = s.
Proof.
  unfold Py.startswith. revert s.
  induction p as [|a p IH]; intros s H; simpl.
  - destruct s; reflexivity.
  - destruct s as [|b s]; simpl in H; [discriminate|].
    destruct (ascii_dec a b) as [->|_]; [|discriminate].
    rewrite (IH s H). reflexivity.
Qed.

Lemma strip_client_prefix_returns (rl : role) (id_ : string) (w w' : world) :
  strip_client_prefix rl w = Ret id_ w' ->
  rl = ("client." ++ id_)%string /\ w' = w.
Proof.
  unfold strip_client_prefix, bind, assert, ret, raise.
  destruct (Py.startswith PREFIX rl) eqn:Hp; [|discriminate].
  cbv beta iota. intros H. injection H as Hid Hw. split; [|symmetry; exact Hw].
  rewrite <- Hid. symmetry. exact (startswith_drop PREFIX rl Hp).
Qed.

(** X1.  The identifier [strip_client_prefix] returns for a role gives
    the role back behind [client.], and two roles with one mount point
    are one role: the mount points of distinct targets are distinct. *)
Theorem mount_points_are_distinct :
  forall (rl1 rl2 : role) (id1 id2 : string) (w1 w1' w2 w2' : world),
    strip_client_prefix rl1 w1 = Ret id1 w1' ->
    strip_client_prefix rl2 w2 = Ret id2 w2' ->
    rl1 = ("client." ++ id1)%string /\
    (mnt_of id1 = mnt_of id2 -> rl1 = rl2).
Proof.
  intros rl1 rl2 id1 id2 w1 w1' w2 w2' H1 H2.
  apply strip_client_prefix_returns in H1. destruct H1 as [-> _].
  apply strip_client_prefix_returns in H2. destruct H2 as [-> _].
  split; [reflexivity|]. unfold mnt_of. intros H.
  apply append_cancel in H. rewrite H. reflexivity.
Qed.

Lemma mount_points_are_distinct_witness :
  "client.0" = ("client." ++ "0")%string /\
  (mnt_of "0" = mnt_of "1" -> "client.0" = "client.1").
Proof.
  exact (mount_points_are_distinct "client.0" "client.1" "0" "1"
           demo_w0 demo_w0 demo_w0 demo_w0 eq_refl eq_refl).
Defined.

(** X2.  Distinct roles have distinct default image names, and distinct
    device paths for them. *)
Theorem default_images_are_distinct :
  forall rl1 rl2 : role,
    (default_image_name rl1 = default_image_name rl2 -> rl1 = rl2) /\
    (dev_path (VStr (default_image_name rl1))
     = dev_path (VStr (default_image_name rl2)) -> rl1 = rl2).
Proof.
  intros rl1 rl2. unfold default_image_name, dev_path. cbn [Py.str]. split.
  - apply append_cancel.
  - intros H. apply append_cancel in H. apply append_cancel in H. exact H.
Qed.

Lemma no_dot_after_last_dot_id (s : string) :
  has_dot s = false -> Py.after_last_dot s = s.
Proof.
  unfold has_dot. destruct s as [|c t]; [reflexivity|].
  cbn [Py.after_last_dot list_ascii_of_string existsb].
  intros H. apply orb_false_iff in H. destruct H as [Hc Ht].
  rewrite Ascii.eqb_sym in Hc. rewrite Hc, Ht. reflexivity.
Qed.

Lemma after_last_dot_has_no_dot (s : string) :
  has_dot (Py.after_last_dot s) = false.
Proof.
  unfold has_dot. induction s as [|c t IH]; [reflexivity|].
  cbn [Py.after_last_dot].
  destruct (Ascii.eqb c "."%char) eqn:Hc; [exact IH|].
  destruct (existsb (Ascii.eqb "."%char) (list_ascii_of_string t)) eqn:Ht;
    [exact IH|].
  cbn [list_ascii_of_string existsb]. rewrite Ascii.eqb_sym, Hc, Ht.
  reflexivity.
Qed.

Lemma has_dot_behind (a b : string) :
  has_dot (a ++ String "."%char b) = true.
Proof.
  unfold has_dot. induction a as [|c a IH];
    cbn [append list_ascii_of_string existsb].
  - reflexivity.
  - rewrite IH. apply orb_true_r.
Qed.

(** What follows the last dot is what follows a dot and holds none. *)
Lemma after_last_dot_behind (a b : string) :
  has_dot b = false -> Py.after_last_dot (a ++ String "."%char b) = b.
Proof.
  intros Hb. induction a as [|c a IH]; cbn [append Py.after_last_dot].
  - apply no_dot_after_last_dot_id. exact Hb.
  - pose proof (has_dot_behind a b) as Hdot. unfold has_dot in Hdot.
    rewrite Hdot. destruct (Ascii.eqb c "."%char); exact IH.
Qed.

(** X3.  The user the mapping step hands to [rbd map] is what follows
    the last dot of the role: it never holds a dot, and for a role
    [client.<id>] whose [id] holds no dot it is the [id] that names the
    mount point of the role. *)
Theorem rbd_user_is_the_client_id :
  forall rl : role,
    has_dot (Py.after_last_dot rl) = false /\
    (forall id_ : string,
       rl = ("client." ++ id_)%string -> has_dot id_ = false ->
       Py.after_last_dot rl = id_ /\
       forall w, strip_client_prefix rl w = Ret (Py.after_last_dot rl) w).
Proof.
  intros rl. split; [apply after_last_dot_has_no_dot|].
  intros id_ -> Hid.
  assert (Huser : Py.after_last_dot ("client." ++ id_)%string = id_).
  { exact (after_last_dot_behind "client" id_ Hid). }
  split; [exact Huser|]. intros w. rewrite Huser.
  apply strip_client_prefix_ok.
Qed.

Lemma default_images_are_distinct_witness : "client.0" = "client.0".
Proof.
  exact (proj1 (default_images_are_distinct "client.0" "client.0") eq_refl).
Defined.

Lemma rbd_user_is_the_client_id_witness :
  Py.after_last_dot "client.0" = "0" /\
  forall w, strip_client_prefix "client.0" w = Ret (Py.after_last_dot "client.0") w.
Proof.
  exact (proj2 (rbd_user_is_the_client_id "client.0") "0" eq_refl eq_refl).
Defined.






Lemma dict_of_none_items {V} (d : Py.dict (option V)) :
  Forall (fun rp => snd rp = None) d ->
  d = map (fun rl => (rl, @None V)) (Py.keys d).
Proof.
  induction 1 as [|[rl p] d Hnone _ IH]; simpl; [reflexivity|].
  cbn [snd] in Hnone. subst p. f_equal. exact IH.
Qed.

(** The image and mkfs steps depend on their configuration through its
    kind and its items only. *)
Lemma create_image_of_items (ctx : context) (c1 c2 : configuration (option properties)) :
  is_list_or_dict c1 = is_list_or_dict c2 ->
  items_of None c1 = items_of None c2 ->
  same_step (create_image ctx c1) (create_image ctx c2).
Proof.
  intros Hkind Hitems. unfold same_step, create_image. cbn [enter exit].
  rewrite Hkind, Hitems. split; reflexivity.
Qed.

Lemma mkfs_of_items (ctx : context) (c1 c2 : configuration (option properties)) :
  is_list_or_dict c1 = is_list_or_dict c2 ->
  items_of None c1 = items_of None c2 ->
  same_step (mkfs ctx c1) (mkfs ctx c2).
Proof.
  intros Hkind Hitems. unfold same_step, mkfs. cbn [enter exit].
  rewrite Hkind, Hitems. split; reflexivity.
Qed.

(** X6.  A dictionary that binds each of its roles to [None] and does
    not use the alias [all] gives [task] the steps of the list of its
    roles, taken in the order in which the dictionary iterates: the
    image, kernel-module and mkfs steps are the same, and [role_images]
    holds the same targets for the device mapping and the mount.  The
    alias is what sets the two apart: a list is handed to the steps as
    it is, the alias included. *)
Theorem dict_of_none_is_the_list_of_its_roles :
  forall (ctx : context) (d : Py.dict (option properties)),
    NoDup (Py.keys d) ->
    Forall (fun rp => snd rp = None) d ->
    Py.lookup d "all" = None ->
    let l := norm_config_of ctx (CList (Py.keys d)) in
    let n := norm_config_of ctx (CDict d) in
    same_step (create_image ctx l) (create_image ctx n) /\
    same_step (modprobe ctx l) (modprobe ctx n) /\
    same_step (mkfs ctx l) (mkfs ctx n) /\
    (forall ri : role * value,
       In ri (items_of VNone (role_images_of l)) <->
       In ri (items_of VNone (role_images_of n))) /\
    (forall roles : list role, norm_config_of ctx (CList roles) = CList roles).
Proof.
  intros ctx d Hnd Hnone Hno l n.
  assert (Hn : n = CDict d) by exact (norm_config_of_dict ctx d Hno).
  assert (Hl : l = CList (Py.keys d)) by reflexivity.
  assert (Hitems : items_of None l = items_of None n).
  { rewrite Hn, Hl. cbn [items_of]. symmetry. exact (dict_of_none_items d Hnone). }
  rewrite Hn, Hl in *. clear Hn Hl l n.
  split; [|split; [|split; [|split]]].
  - apply create_image_of_items; [reflexivity | exact Hitems].
  - split; intros w; reflexivity.
  - apply mkfs_of_items; [reflexivity | exact Hitems].
  - intros ri. rewrite (role_images_of_dict d Hnd).
    cbn [role_images_of items_of].
    rewrite (dict_of_none_items d Hnone) at 2. rewrite map_map.
    cbn [fst snd or_empty]. reflexivity.
  - intros roles. reflexivity.
Qed.

Lemma dict_of_none_is_the_list_of_its_roles_witness :
  same_step
    (mkfs quiet_ctx (norm_config_of quiet_ctx (CList ["client.1"; "client.0"])))
    (mkfs quiet_ctx
       (norm_config_of quiet_ctx (CDict [("client.1", None); ("client.0", None)]))).
Proof.
  assert (Hnd : NoDup (Py.keys [("client.1", @None properties); ("client.0", None)])).
  { repeat constructor; simpl; intuition discriminate. }
  assert (Hnone : Forall (fun rp : role * option properties => snd rp = None)
                    [("client.1", None); ("client.0", None)]).
  { repeat constructor. }
  destruct (dict_of_none_is_the_list_of_its_roles quiet_ctx
              [("client.1", None); ("client.0", None)] Hnd Hnone eq_refl)
    as (_ & _ & Hmkfs & _).
  exact Hmkfs.
Defined.

(* ================================================================== *)
(** * What a step has run once it returns *)

Lemma the_remote_returns (ctx : context) (rl : role) (r : remote) (w w' : world) :
  the_remote ctx rl w = Ret r w' ->
  only ctx rl = [r] /\ host_of ctx rl = r /\ w' = w.
Proof.
  unfold the_remote, host_of.
  destruct (only ctx rl) as [|r0 [|r1 rest]]; unfold ret, raise;
    try discriminate.
  intros H. injection H as <- <-. repeat split.
Qed.

(** A loop whose body, when it returns, has added the entries of its
    target to the log has added those of all its targets, in order. *)
Lemma for_each_log {X} (body : X -> M world unit)
    (entries : X -> list (remote * list arg)) :
  (forall x w w', body x w = Ret tt w' -> log w' = log w ++ entries x) ->
  forall xs w w',
    for_each xs body w = Ret tt w' ->
    log w' = log w ++ flat_map entries xs.
Proof.
  intros Hbody. induction xs as [|x xs IH]; intros w w' H; simpl in *.
  - unfold ret in H. injection H as <-. rewrite app_nil_r. reflexivity.
  - unfold bind in H. destruct (body x w) as [|e w1|[] w1] eqn:Hx;
      try discriminate.
    rewrite (IH _ _ H), (Hbody _ _ _ Hx), <- app_assoc. reflexivity.
Qed.

Lemma remote_run_simple_returns (ctx : context) (r : remote) (argv : list value)
    (w w' : world) :
  remote_run ctx r (Simple argv) w = Ret tt w' ->
  w' = World (S (clock w)) (log w ++ [(r, map Arg argv)]).
Proof.
  rewrite remote_run_simple. cbv zeta.
  destruct (simple_status ctx (clock w) r argv); [|discriminate].
  intros H. injection H as <-. reflexivity.
Qed.

Lemma create_one_log (ctx : context) (rp : role * option properties) (w w' : world) :
  create_one ctx rp w = Ret tt w' -> log w' = log w ++ created ctx rp.
Proof.
  unfold create_one, bind, created.
  destruct (the_remote ctx (fst rp) w) as [|e w1|r w1] eqn:Hr; try discriminate.
  apply the_remote_returns in Hr. destruct Hr as (_ & -> & ->).
  unfold rbd_create. intros H. apply remote_run_simple_returns in H.
  rewrite H. reflexivity.
Qed.

Lemma delete_one_log (ctx : context) (rp : role * option properties) (w w' : world) :
  delete_one ctx rp w = Ret tt w' -> log w' = log w ++ deleted ctx rp.
Proof.
  unfold delete_one, bind, deleted.
  destruct (the_remote ctx (fst rp) w) as [|e w1|r w1] eqn:Hr; try discriminate.
  apply the_remote_returns in Hr. destruct Hr as (_ & -> & ->).
  unfold rbd_rm. intros H. apply remote_run_simple_returns in H.
  rewrite H. reflexivity.
Qed.

(** X7.  When the enter of the image step returns it has run one
    [rbd create] for each target, in the order of the targets, on the
    remote of the target and nothing else; when its exit returns it has
    run one [rbd rm] for each target, in the same order, on the same
    remote and under the name the enter created. *)
Theorem image_step_log :
  forall (ctx : context) (config : configuration (option properties))
         (w w' : world),
    (enter (create_image ctx config) w = Ret tt w' ->
     log w' = log w ++ flat_map (created ctx) (items_of None config)) /\
    (exit (create_image ctx config) w = Ret tt w' ->
     log w' = log w ++ flat_map (deleted ctx) (items_of None config)).
Proof.
  intros ctx config w w'. split; cbn [create_image enter exit].
  - unfold bind, assert. destruct (is_list_or_dict config); [|discriminate].
    unfold ret. apply for_each_log. intros rp. apply create_one_log.
  - apply for_each_log. intros rp. apply delete_one_log.
Qed.

Lemma image_step_log_witness :
  log (World 2 [("h1", tokens (rbd_create (VStr "testimage.client.0")
                                 (VInt 10240) (VInt 1)));
                ("h2", tokens (rbd_create (VStr "testimage.client.1")
                                 (VInt 10240) (VInt 1)))])
  = log demo_w0 ++ flat_map (created quiet_ctx) (items_of None two_clients).
Proof.
  exact (proj1 (image_step_log quiet_ctx two_clients demo_w0 _) eq_refl).
Defined.

Lemma mount_one_log (ctx : context) (ri : role * value) (w w' : world) :
  mount_one ctx ri w = Ret tt w' ->
  log w' = log w ++ mounted ctx ri /\ Py.startswith "client." (fst ri) = true.
Proof.
  unfold mount_one, bind, mounted.
  destruct (the_remote ctx (fst ri) w) as [|e w1|r w1] eqn:Hr; try discriminate.
  apply the_remote_returns in Hr. destruct Hr as (_ & -> & ->).
  unfold strip_client_prefix, bind, assert, PREFIX.
  destruct (Py.startswith "client." (fst ri)); [|discriminate].
  unfold ret. cbv beta iota.
  match goal with
  | |- context [remote_run ctx ?r ?c w] =>
      destruct (remote_run ctx r c w) as [|e w2|[] w2] eqn:H1
  end; try discriminate.
  apply remote_run_simple_returns in H1. intros H2.
  apply remote_run_simple_returns in H2. rewrite H2, H1. cbn [log clock].
  rewrite <- app_assoc. split; reflexivity.
Qed.

Lemma umount_one_log (ctx : context) (ri : role * value) (w w' : world) :
  umount_one ctx ri w = Ret tt w' -> log w' = log w ++ unmounted ctx ri.
Proof.
  unfold umount_one, bind, unmounted.
  destruct (the_remote ctx (fst ri) w) as [|e w1|r w1] eqn:Hr; try discriminate.
  apply the_remote_returns in Hr. destruct Hr as (_ & -> & ->).
  unfold strip_client_prefix, bind, assert, PREFIX.
  destruct (Py.startswith "client." (fst ri)); [|discriminate].
  unfold ret. cbv beta iota.
  match goal with
  | |- context [remote_run ctx ?r ?c w] =>
      destruct (remote_run ctx r c w) as [|e w2|[] w2] eqn:H1
  end; try discriminate.
  apply remote_run_simple_returns in H1. intros H2.
  apply remote_run_simple_returns in H2. rewrite H2, H1. cbn [log clock].
  rewrite <- app_assoc. reflexivity.
Qed.

Lemma for_each_returns_all {W X} (xs : list X) (body : X -> M W unit)
    (P : X -> Prop) :
  (forall x w w', body x w = Ret tt w' -> P x) ->
  forall w w', for_each xs body w = Ret tt w' -> Forall P xs.
Proof.
  intros HP w w' H. apply for_each_returns_each in H.
  eapply Forall_impl; [|exact H]. intros x (w1 & w2 & Hx). exact (HP _ _ _ Hx).
Qed.

(** X8.  When the enter of the mount step returns, every target starts
    with [client.] and the step has run, target by target in the order
    of the targets, [mkdir] and [mount] on the mount point of the
    target; when its exit returns it has run, in that same order of the
    targets, [umount] and [rmdir] on the same mount points. *)
Theorem mount_step_log :
  forall (ctx : context) (config : configuration value) (w w' : world),
    (enter (mount ctx config) w = Ret tt w' ->
     log w' = log w ++ flat_map (mounted ctx) (items_of VNone config) /\
     Forall (fun ri => Py.startswith "client." (fst ri) = true)
            (items_of VNone config)) /\
    (exit (mount ctx config) w = Ret tt w' ->
     log w' = log w ++ flat_map (unmounted ctx) (items_of VNone config)).
Proof.
  intros ctx config w w'. split; cbn [mount enter exit].
  - unfold bind, assert. destruct (is_list_or_dict config); [|discriminate].
    unfold ret. intros H. split.
    + revert H. apply for_each_log. intros ri w0 w1 H.
      exact (proj1 (mount_one_log ctx ri w0 w1 H)).
    + revert H. apply for_each_returns_all. intros ri w0 w1 H.
      exact (proj2 (mount_one_log ctx ri w0 w1 H)).
  - apply for_each_log. intros ri. apply umount_one_log.
Qed.

Lemma mount_step_log_witness :
  log (World 2 [("h1", map Arg (lits [ "sudo"; "umount"; "/tmp/cephtest/mnt.0" ]));
                ("h1", map Arg (lits [ "rmdir"; "--"; "/tmp/cephtest/mnt.0" ]))])
  = log demo_w0 ++ flat_map (unmounted quiet_ctx)
                     (items_of VNone (CList ["client.0"])).
Proof.
  exact (proj2 (mount_step_log quiet_ctx (CList ["client.0"]) demo_w0 _) eq_refl).
Defined.




(* ================================================================== *)
(** * Teardown that fails inside a step *)

(** X10.  When, on exit of the mount step, the [umount] of a target
    fails after the targets before it were unmounted, the exit raises
    that failure in the world right after the [umount]: the directory of
    the target is not removed and the targets after it stay mounted. *)
Theorem failed_umount_ends_the_exit :
  forall (ctx : context) (config : configuration value)
         (pre post : list (role * value)) (id_ : string) (image : value)
         (r : remote) (w w1 : world),
    let rl := ("client." ++ id_)%string in
    let umount := lits [ "sudo"; "umount"; "/tmp/cephtest/mnt." ++ id_ ]%string in
    items_of VNone config = pre ++ (rl, image) :: post ->
    for_each pre (umount_one ctx) w = Ret tt w1 ->
    only ctx rl = [r] ->
    sh_eval ctx r (Simple umount) (clock w1) = Some (S (clock w1), false) ->
    exit (mount ctx config) w
    = Raise (RemoteCommandError r (map Arg umount))
        (World (S (clock w1)) (log w1 ++ [(r, map Arg umount)])).
Proof.
  intros ctx config pre post id_ image r w w1 rl umount Hitems Hpre Hr Hfail.
  cbn [mount exit]. rewrite Hitems.
  apply for_each_stops with (w1 := w1); [exact Hpre|].
  unfold umount_one, the_remote. cbn [fst snd]. unfold bind at 1.
  rewrite Hr. unfold ret. unfold bind at 1. unfold rl.
  rewrite strip_client_prefix_ok. unfold bind.
  unfold remote_run at 1. unfold mnt_of. fold umount. rewrite Hfail.
  reflexivity.
Qed.

Lemma failed_umount_ends_the_exit_witness :
  exit (mount busy_umount_ctx (CList ["client.0"; "client.1"])) demo_w0
  = Raise (RemoteCommandError "h1"
             (map Arg (lits [ "sudo"; "umount"; "/tmp/cephtest/mnt.0" ])))
      (World 1 [("h1", map Arg (lits [ "sudo"; "umount"; "/tmp/cephtest/mnt.0" ]))]).
Proof.
  exact (failed_umount_ends_the_exit busy_umount_ctx
           (CList ["client.0"; "client.1"]) [] [("client.1", VNone)]
           "0" VNone "h1" demo_w0 demo_w0 eq_refl eq_refl eq_refl eq_refl).
Defined.

(** X11.  When, on exit of the image step, the removal of the image of
    a target fails after those before it were removed, the exit raises
    that failure in the world the failing removal left: the log holds
    the removals of the targets before it and at most the failing one,
    and no removal is attempted for the targets after it. *)
Theorem failed_removal_ends_the_exit :
  forall (ctx : context) (config : configuration (option properties))
         (pre post : list (role * option properties))
         (rp : role * option properties) (w w1 w2 : world) (e : exn),
    items_of None config = pre ++ rp :: post ->
    for_each pre (delete_one ctx) w = Ret tt w1 ->
    delete_one ctx rp w1 = Raise e w2 ->
    exit (create_image ctx config) w = Raise e w2 /\
    (log w2 = log w ++ flat_map (deleted ctx) pre \/
     exists r,
       log w2 = log w ++ flat_map (deleted ctx) pre
                ++ [(r, tokens (rbd_rm (image_name_of (fst rp) (snd rp))))]).
Proof.
  intros ctx config pre post rp w w1 w2 e Hitems Hpre Hrp. split.
  - cbn [create_image exit]. rewrite Hitems.
    apply for_each_stops with (w1 := w1); assumption.
  - pose proof (for_each_log (delete_one ctx) (deleted ctx)
                  (delete_one_log ctx) pre w w1 Hpre) as Hlog.
    unfold delete_one, the_remote, bind in Hrp.
    destruct (only ctx (fst rp)) as [|r [|r' rest]]; unfold raise, ret in Hrp.
    + injection Hrp as _ <-. left. exact Hlog.
    + right. exists r. unfold rbd_rm in *.
      rewrite remote_run_simple in Hrp. cbv zeta in Hrp.
      match type of Hrp with
      | context [simple_status ?c ?t ?h ?a] => destruct (simple_status c t h a)
      end; [discriminate|].
      injection Hrp as _ <-. cbn [log]. rewrite Hlog, <- app_assoc.
      reflexivity.
    + injection Hrp as _ <-. left. exact Hlog.
Qed.

Lemma failed_removal_ends_the_exit_witness :
  let rm0 := tokens (rbd_rm (VStr "testimage.client.0")) in
  exit (create_image no_rm_ctx two_clients) demo_w0
  = Raise (RemoteCommandError "h1" rm0) (World 1 [("h1", rm0)]).
Proof.
  intros rm0.
  exact (proj1 (failed_removal_ends_the_exit no_rm_ctx two_clients []
                  [("client.1", None)] ("client.0", None)
                  demo_w0 demo_w0 (World 1 [("h1", rm0)])
                  (RemoteCommandError "h1" rm0) eq_refl eq_refl eq_refl)).
Defined.

(* ================================================================== *)
(** * The hosts a step runs commands on *)

Lemma keeps_to_ret {A} (hosts : list remote) (a : A) : keeps_to hosts (ret a).
Proof. intros w w' Hw H. injection H as <-. exact Hw. Qed.

Lemma keeps_to_raise {A} (hosts : list remote) (e : exn) :
  keeps_to hosts (@raise world A e).
Proof. intros w w' Hw H. injection H as <-. exact Hw. Qed.

Lemma keeps_to_assert (hosts : list remote) (b : bool) (msg : string) :
  keeps_to hosts (@assert world b msg).
Proof. destruct b; [apply keeps_to_ret | apply keeps_to_raise]. Qed.

Lemma keeps_to_bind {A B} (hosts : list remote) (m : M world A) (k : A -> M world B) :
  keeps_to hosts m ->
  (forall a w w', m w = Ret a w' -> keeps_to hosts (k a)) ->
  keeps_to hosts (bind m k).
Proof.
  intros Hm Hk w w' Hw H. unfold bind in H.
  destruct (m w) as [|e w1|a w1] eqn:Hmw.
  - discriminate.
  - apply (Hm w w' Hw). rewrite Hmw. exact H.
  - apply (Hk a w w1 Hmw w1 w'); [|exact H].
    apply (Hm w w1 Hw). rewrite Hmw. reflexivity.
Qed.

Lemma keeps_to_for_each {X} (hosts : list remote) (xs : list X)
    (body : X -> M world unit) :
  (forall x, In x xs -> keeps_to hosts (body x)) ->
  keeps_to hosts (for_each xs body).
Proof.
  induction xs as [|x xs IH]; intros Hbody; simpl.
  - apply keeps_to_ret.
  - apply keeps_to_bind.
    + apply Hbody. left. reflexivity.
    + intros _ _ _ _. apply IH. intros y Hy. apply Hbody. right. exact Hy.
Qed.

Lemma keeps_to_remote_run (ctx : context) (hosts : list remote) (r : remote) (c : sh) :
  In r hosts -> keeps_to hosts (remote_run ctx r c).
Proof.
  intros Hr w w' Hw H. unfold remote_run in H.
  destruct (sh_eval ctx r c (clock w)) as [[t [|]]|]; try discriminate;
    injection H as <-; unfold confined, logged in *; cbn [log];
    apply Forall_app; (split; [exact Hw|]); constructor; [exact Hr| | exact Hr|];
    constructor.
Qed.

Lemma keeps_to_remote_run_nowait (hosts : list remote) (r : remote) (c : sh) :
  In r hosts -> keeps_to hosts (remote_run_nowait r c).
Proof.
  intros Hr w w' Hw H. unfold remote_run_nowait in H. injection H as <-.
  unfold confined, logged in *. cbn [log]. apply Forall_app.
  split; [exact Hw|]. constructor; [exact Hr | constructor].
Qed.

(** The remote a step finds for a target is a host of the targets. *)
Lemma keeps_to_on_the_remote {A} (ctx : context) (roles : list role) (rl : role)
    (k : remote -> M world A) :
  In rl roles ->
  (forall r, In r (hosts_of_targets ctx roles) ->
             keeps_to (hosts_of_targets ctx roles) (k r)) ->
  keeps_to (hosts_of_targets ctx roles) (bind (the_remote ctx rl) k).
Proof.
  intros Hrl Hk. apply keeps_to_bind.
  - unfold the_remote. destruct (only ctx rl) as [|r [|r' rest]];
      [apply keeps_to_raise | apply keeps_to_ret | apply keeps_to_raise].
  - intros r w w' Hr. apply the_remote_returns in Hr.
    destruct Hr as (Honly & _ & _). apply Hk.
    unfold hosts_of_targets. apply in_flat_map. exists rl.
    split; [exact Hrl|]. rewrite Honly. left. reflexivity.
Qed.

(** X12.  The image, kernel-module, mkfs and mount steps and the exit of
    the mapping step run commands only on the remotes that hold a
    target of their configuration: started where no command ran outside
    those hosts, their enter and their exit stop, returning or raising,
    where none did. *)
Theorem steps_keep_to_their_hosts :
  forall (ctx : context) (config : configuration (option properties))
         (images : configuration value),
    let hosts := hosts_of_targets ctx (map fst (items_of None config)) in
    let hosts' := hosts_of_targets ctx (map fst (items_of VNone images)) in
    (keeps_to hosts (enter (create_image ctx config)) /\
     keeps_to hosts (exit (create_image ctx config))) /\
    (keeps_to hosts (enter (modprobe ctx config)) /\
     keeps_to hosts (exit (modprobe ctx config))) /\
    keeps_to hosts (enter (mkfs ctx config)) /\
    (keeps_to hosts' (enter (mount ctx images)) /\
     keeps_to hosts' (exit (mount ctx images))) /\
    keeps_to hosts' (exit (dev_create ctx images)).
Proof.
  intros ctx config images hosts hosts'.
  assert (Hin : forall {X} (none : X) (c : configuration X) (x : role * X),
             In x (items_of none c) -> In (fst x) (map fst (items_of none c))).
  { intros X none c x Hx. apply in_map. exact Hx. }
  assert (Hiter : forall w w' roles,
             iterate config w = Ret roles w' ->
             roles = map fst (items_of None config)).
  { intros w w' roles. destruct config as [|l|d]; cbn [iterate items_of];
      unfold ret, raise; intros H; try discriminate; injection H as <- _.
    - rewrite map_map. symmetry. apply map_id.
    - reflexivity. }
  assert (Hiterk : keeps_to hosts (iterate config)).
  { destruct config; [apply keeps_to_raise | apply keeps_to_ret | apply keeps_to_ret]. }
  repeat split.
  - cbn [create_image enter]. apply keeps_to_bind; [apply keeps_to_assert|].
    intros _ _ _ _. apply keeps_to_for_each. intros rp Hrp.
    apply keeps_to_on_the_remote; [exact (Hin _ _ _ _ Hrp)|].
    intros r Hr. apply keeps_to_remote_run. exact Hr.
  - cbn [create_image exit]. apply keeps_to_for_each. intros rp Hrp.
    apply keeps_to_on_the_remote; [exact (Hin _ _ _ _ Hrp)|].
    intros r Hr. apply keeps_to_remote_run. exact Hr.
  - cbn [modprobe enter]. apply keeps_to_bind; [exact Hiterk|].
    intros roles w w' Hroles. rewrite (Hiter _ _ _ Hroles).
    apply keeps_to_for_each. intros rl Hrl.
    apply keeps_to_on_the_remote; [exact Hrl|].
    intros r Hr. apply keeps_to_remote_run. exact Hr.
  - cbn [modprobe exit]. apply keeps_to_bind; [exact Hiterk|].
    intros roles w w' Hroles. rewrite (Hiter _ _ _ Hroles).
    apply keeps_to_for_each. intros rl Hrl.
    apply keeps_to_on_the_remote; [exact Hrl|].
    intros r Hr. apply keeps_to_remote_run. exact Hr.
  - cbn [mkfs enter]. apply keeps_to_bind; [apply keeps_to_assert|].
    intros _ _ _ _. apply keeps_to_for_each. intros rp Hrp.
    apply keeps_to_on_the_remote; [exact (Hin _ _ _ _ Hrp)|].
    intros r Hr. apply keeps_to_remote_run. exact Hr.
  - cbn [mount enter]. apply keeps_to_bind; [apply keeps_to_assert|].
    intros _ _ _ _. apply keeps_to_for_each. intros ri Hri.
    apply keeps_to_on_the_remote; [exact (Hin _ _ _ _ Hri)|].
    intros r Hr. apply keeps_to_bind.
    + unfold strip_client_prefix. apply keeps_to_bind;
        [apply keeps_to_assert | intros; apply keeps_to_ret].
    + intros id_ _ _ _. apply keeps_to_bind;
        [|intros]; apply keeps_to_remote_run; exact Hr.
  - cbn [mount exit]. apply keeps_to_for_each. intros ri Hri.
    apply keeps_to_on_the_remote; [exact (Hin _ _ _ _ Hri)|].
    intros r Hr. apply keeps_to_bind.
    + unfold strip_client_prefix. apply keeps_to_bind;
        [apply keeps_to_assert | intros; apply keeps_to_ret].
    + intros id_ _ _ _. apply keeps_to_bind;
        [|intros]; apply keeps_to_remote_run; exact Hr.
  - cbn [dev_create exit]. apply keeps_to_for_each. intros ri Hri.
    apply keeps_to_on_the_remote; [exact (Hin _ _ _ _ Hri)|].
    intros r Hr. apply keeps_to_bind.
    + apply keeps_to_remote_run. exact Hr.
    + intros. apply keeps_to_remote_run_nowait. exact Hr.
Qed.

(* ================================================================== *)
(** * Canonical paths and the workload *)

Lemma append_empty_r (s : string) : (s ++ EmptyString)%string = s.
Proof. induction s as [|c s IH]; simpl; [reflexivity | rewrite IH; reflexivity]. Qed.

Lemma rstrip_nl_newlines (n : nat) : Py.rstrip_nl (newlines n) = EmptyString.
Proof. induction n as [|n IH]; simpl; [reflexivity | rewrite IH; reflexivity]. Qed.

(** Trailing newlines do not count. *)
Lemma rstrip_nl_behind (p : string) (n : nat) :
  Py.rstrip_nl (p ++ newlines n) = Py.rstrip_nl p.
Proof.
  induction p as [|c p IH]; cbn [append Py.rstrip_nl].
  - apply rstrip_nl_newlines.
  - rewrite IH. reflexivity.
Qed.

Lemma rstrip_nl_idempotent (s : string) :
  Py.rstrip_nl (Py.rstrip_nl s) = Py.rstrip_nl s.
Proof.
  induction s as [|c s IH]; [reflexivity|]. cbn [Py.rstrip_nl].
  destruct (Py.rstrip_nl s) as [|c' s'] eqn:Hs.
  - destruct (Ascii.eqb c "010"%char) eqn:Hc; [reflexivity|].
    cbn [Py.rstrip_nl]. rewrite Hc. reflexivity.
  - cbn [Py.rstrip_nl]. cbn [Py.rstrip_nl] in IH. rewrite IH. reflexivity.
Qed.

Lemma readlink_on_one_remote (ctx : context) (rl : role) (r : remote)
    (path : value) (w : world) :
  only ctx rl = [r] ->
  simple_status ctx (clock w) r [ VStr "readlink"; VStr "-f"; path ] = true ->
  canonical_path ctx rl path w
  = Ret (Py.rstrip_nl (output ctx (clock w) r [ VStr "readlink"; VStr "-f"; path ]))
      (World (S (clock w))
         (log w ++ [(r, map Arg [ VStr "readlink"; VStr "-f"; path ])])).
Proof.
  intros Hr Hok. unfold canonical_path. rewrite Hr.
  cbn [cluster_run_stdout]. unfold bind, remote_run_stdout.
  rewrite remote_run_simple. cbv zeta. rewrite Hok. unfold ret.
  rewrite append_empty_r. reflexivity.
Qed.

(** X13.  The canonical path of a path is what [readlink -f] prints on
    the remote of the role without its trailing newlines: when the
    remote prints a path that does not end in a newline, followed by
    any number of newlines, [canonical_path] returns that path, having
    run the one command; and stripping is idempotent. *)
Theorem canonical_path_strips_newlines :
  forall (ctx : context) (rl : role) (r : remote) (path : value) (w : world)
         (printed : string) (n : nat),
    only ctx rl = [r] ->
    simple_status ctx (clock w) r [ VStr "readlink"; VStr "-f"; path ] = true ->
    output ctx (clock w) r [ VStr "readlink"; VStr "-f"; path ]
    = (printed ++ newlines n)%string ->
    Py.rstrip_nl printed = printed ->
    canonical_path ctx rl path w
    = Ret printed
        (World (S (clock w))
           (log w ++ [(r, map Arg [ VStr "readlink"; VStr "-f"; path ])])) /\
    Py.rstrip_nl (Py.rstrip_nl (printed ++ newlines n)) = printed.
Proof.
  intros ctx rl r path w printed n Hr Hok Hout Hclean. split.
  - rewrite (readlink_on_one_remote ctx rl r path w Hr Hok).
    rewrite Hout, rstrip_nl_behind, Hclean. reflexivity.
  - rewrite rstrip_nl_idempotent, rstrip_nl_behind. exact Hclean.
Qed.

Lemma canonical_path_strips_newlines_witness :
  canonical_path readlink_ctx "client.0" (VStr "/dev/rbd/rbd/test_image") demo_w0
  = Ret "/dev/rbd0"
      (World 1 [("h1", map Arg [ VStr "readlink"; VStr "-f";
                                 VStr "/dev/rbd/rbd/test_image" ])]).
Proof.
  exact (proj1 (canonical_path_strips_newlines readlink_ctx "client.0" "h1"
                  (VStr "/dev/rbd/rbd/test_image") demo_w0 "/dev/rbd0" 1
                  eq_refl eq_refl eq_refl eq_refl)).
Defined.

(** X14.  [run_xfstests] requires both devices.  For a target without
    [test_dev] it fails on the assertion before any command; for a
    target with [test_dev] and without [scratch_dev] it fails on the
    assertion once the canonical path of the test device is resolved.
    The enter of a configuration holding such a target never returns. *)
Theorem run_xfstests_requires_both_devices :
  forall (ctx : context) (rl : role) (props : properties),
    (Py.get props "test_dev" VNone = VNone ->
     forall w,
       run_xfstests_one ctx (rl, props) w
       = Raise (AssertionError "task run_xfstests requires test_dev to be defined") w) /\
    (Py.get props "test_dev" VNone <> VNone ->
     Py.get props "scratch_dev" VNone = VNone ->
     forall w,
       run_xfstests_one ctx (rl, props) w
       = (canonical_path ctx rl (Py.get props "test_dev" VNone) ;;;
          raise (AssertionError
                   "task run_xfstests requires scratch_dev to be defined")) w) /\
    (Py.get props "test_dev" VNone = VNone \/
     Py.get props "scratch_dev" VNone = VNone ->
     forall (config : Py.dict properties) (w : world),
       In (rl, props) config ->
       returned (enter (run_xfstests ctx config) w) = false).
Proof.
  intros ctx rl props.
  assert (Htest : Py.get props "test_dev" VNone = VNone ->
                  forall w,
                    run_xfstests_one ctx (rl, props) w
                    = Raise (AssertionError
                               "task run_xfstests requires test_dev to be defined") w).
  { intros H w. unfold run_xfstests_one. cbn [fst snd]. rewrite H. reflexivity. }
  assert (Hscratch :
            Py.get props "test_dev" VNone <> VNone ->
            Py.get props "scratch_dev" VNone = VNone ->
            forall w,
              run_xfstests_one ctx (rl, props) w
              = (canonical_path ctx rl (Py.get props "test_dev" VNone) ;;;
                 raise (AssertionError
                          "task run_xfstests requires scratch_dev to be defined")) w).
  { intros Ht Hs w. unfold run_xfstests_one. cbn [fst snd]. rewrite Hs.
    destruct (Py.get props "test_dev" VNone) eqn:Hv; [contradiction| |];
      unfold bind, assert, ret; cbn [is_none negb];
      match goal with
      | |- context [canonical_path ?c ?a ?b w] =>
          destruct (canonical_path c a b w)
      end; reflexivity. }
  split; [exact Htest|]. split; [exact Hscratch|].
  intros Hmiss config w Hin. cbn [run_xfstests enter].
  apply for_each_never_returns with (x := (rl, props)); [exact Hin|].
  intros w0.
  destruct (Py.get props "test_dev" VNone) eqn:Ht.
  - rewrite (Htest eq_refl). reflexivity.
  - destruct Hmiss as [Hm|Hm]; [discriminate|].
    rewrite (Hscratch ltac:(discriminate) Hm). unfold bind.
    destruct (canonical_path ctx rl (VStr s) w0); reflexivity.
  - destruct Hmiss as [Hm|Hm]; [discriminate|].
    rewrite (Hscratch ltac:(discriminate) Hm). unfold bind.
    destruct (canonical_path ctx rl (VInt z) w0); reflexivity.
Qed.

Lemma run_xfstests_requires_both_devices_witness :
  run_xfstests_one quiet_ctx ("client.0", [("scratch_dev", VStr "/dev/sdb")]) demo_w0
  = Raise (AssertionError "task run_xfstests requires test_dev to be defined")
      demo_w0.
Proof.
  exact (proj1 (run_xfstests_requires_both_devices quiet_ctx "client.0"
                  [("scratch_dev", VStr "/dev/sdb")]) eq_refl demo_w0).
Defined.

(** X15.  With both devices given, on the one remote of the target and
    with every command succeeding, [run_xfstests] resolves the canonical
    path of the test device and of the scratch device, fetches the
    script and runs it on the two canonical paths, in this order and
    nothing else: the script never sees the paths of the
    configuration, it sees what [readlink -f] printed for them. *)
Theorem run_xfstests_runs_on_canonical_paths :
  forall (ctx : context) (rl : role) (props : properties) (r : remote)
         (w : world) (test_dev scratch_dev : value),
    let t := clock w in
    let readlink v := [ VStr "readlink"; VStr "-f"; v ] in
    let wget := lits [ "wget"; "-O"; test_path; "--"; test_url ] in
    let test := Py.rstrip_nl (output ctx t r (readlink test_dev)) in
    let scratch := Py.rstrip_nl (output ctx (S t) r (readlink scratch_dev)) in
    let script :=
      run_xfstests_args (Py.get props "fs_type" VNone) test scratch
        (Py.get props "tests" VNone) in
    only ctx rl = [r] ->
    Py.get props "test_dev" VNone = test_dev -> test_dev <> VNone ->
    Py.get props "scratch_dev" VNone = scratch_dev -> scratch_dev <> VNone ->
    simple_status ctx t r (readlink test_dev) = true ->
    simple_status ctx (S t) r (readlink scratch_dev) = true ->
    simple_status ctx (S (S t)) r wget = true ->
    simple_status ctx (S (S (S t))) r script = true ->
    run_xfstests_one ctx (rl, props) w
    = Ret tt
        (World (S (S (S (S t))))
           (log w ++ [ (r, map Arg (readlink test_dev));
                       (r, map Arg (readlink scratch_dev));
                       (r, map Arg wget);
                       (r, map Arg script) ])).
Proof.
  intros ctx rl props r w test_dev scratch_dev t readlink wget test scratch
         script Hr Htest Htest' Hscratch Hscratch' H1 H2 H3 H4.
  unfold run_xfstests_one. cbn [fst snd]. rewrite Htest, Hscratch.
  assert (Hn1 : negb (is_none test_dev) = true)
    by (destruct test_dev; [contradiction | reflexivity | reflexivity]).
  assert (Hn2 : negb (is_none scratch_dev) = true)
    by (destruct scratch_dev; [contradiction | reflexivity | reflexivity]).
  rewrite Hn1, Hn2. unfold assert. unfold bind at 1. unfold ret at 1.
  unfold bind at 1.
  rewrite (readlink_on_one_remote ctx rl r test_dev w Hr H1).
  unfold bind at 1. unfold ret at 1. unfold bind at 1.
  erewrite (readlink_on_one_remote ctx rl r scratch_dev);
    [|exact Hr | exact H2].
  cbn [clock log]. unfold the_remote. rewrite Hr. unfold bind at 1.
  unfold ret at 1. unfold bind. rewrite remote_run_simple. cbv zeta.
  cbn [clock log]. fold wget. fold t. rewrite H3.
  rewrite remote_run_simple. cbv zeta. cbn [clock log].
  unfold script, test, scratch, readlink in H4. rewrite H4.
  rewrite <- !app_assoc. reflexivity.
Qed.

Lemma run_xfstests_runs_on_canonical_paths_witness :
  run_xfstests_one readlink_ctx
    ("client.0", test_config [("tests", VStr "1-9")]) demo_w0
  = Ret tt
      (World 4
         [ ("h1", map Arg [ VStr "readlink"; VStr "-f";
                            VStr "/dev/rbd/rbd/test_image" ]);
           ("h1", map Arg [ VStr "readlink"; VStr "-f";
                            VStr "/dev/rbd/rbd/scratch_image" ]);
           ("h1", map Arg (lits [ "wget"; "-O"; test_path; "--"; test_url ]));
           ("h1", map Arg (run_xfstests_args (VStr "xfs") "/dev/rbd0" "/dev/rbd0"
                             (VStr "1-9"))) ]).
Proof.
  exact (run_xfstests_runs_on_canonical_paths readlink_ctx "client.0"
           (test_config [("tests", VStr "1-9")]) "h1" demo_w0
           (VStr "/dev/rbd/rbd/test_image") (VStr "/dev/rbd/rbd/scratch_image")
           eq_refl eq_refl ltac:(discriminate) eq_refl ltac:(discriminate)
           eq_refl eq_refl eq_refl eq_refl).
Defined.

(* ================================================================== *)
(** * When the plan check of xfstests passes *)

Lemma only_in (ctx : context) (rl : role) (h : remote) :
  In h (only ctx rl) <->
  exists roles, In (h, roles) (cluster ctx) /\ has_role rl roles = true.
Proof.
  unfold only. rewrite in_map_iff. split.
  - intros ([h' roles] & Heq & Hin). cbn [fst] in Heq. subst h'.
    apply filter_In in Hin. destruct Hin as [Hin Hrole].
    exists roles. split; assumption.
  - intros (roles & Hin & Hrole). exists (h, roles).
    split; [reflexivity|]. apply filter_In. split; assumption.
Qed.

Lemma NoDup_map_filter {A B} (f : A -> B) (g : A -> bool) (l : list A) :
  NoDup (map f l) -> NoDup (map f (filter g l)).
Proof.
  induction l as [|a l IH]; intros H; simpl; [constructor|].
  inversion H as [|x xs Hnot Hnd]; subst.
  destruct (g a); simpl; [|exact (IH Hnd)].
  constructor; [|exact (IH Hnd)].
  intros Hin. apply Hnot. apply in_map_iff in Hin.
  destruct Hin as (a' & Heq & Hin). apply filter_In in Hin.
  apply in_map_iff. exists a'. split; [exact Heq | exact (proj1 Hin)].
Qed.

Lemma NoDup_app_disjoint {A} (l1 l2 : list A) :
  NoDup (l1 ++ l2) -> forall a, In a l1 -> ~ In a l2.
Proof.
  induction l1 as [|x l1 IH]; intros H a Hin; [contradiction|].
  simpl in H. inversion H as [|y ys Hnot Hnd]; subst.
  destruct Hin as [->|Hin].
  - intros Hin2. apply Hnot. apply in_or_app. right. exact Hin2.
  - exact (IH Hnd a Hin).
Qed.

(** A role none of whose hosts is claimed claims them, and nothing
    else. *)
Lemma claim_hosts_free (rl : role) (remotes : list (remote * list role)) :
  NoDup (map fst remotes) ->
  forall running w,
    (forall h roles, In (h, roles) remotes -> has_role rl roles = true ->
                     Py.mem running h = false) ->
    exists running',
      claim_hosts rl remotes running w = Ret running' w /\
      (forall h, Py.mem running' h = true ->
                 Py.mem running h = true \/
                 exists roles, In (h, roles) remotes /\ has_role rl roles = true).
Proof.
  induction remotes as [|[host roles0] rest IH]; intros Hnd running w Hfree;
    simpl.
  - exists running. split; [reflexivity|]. intros h Hh. left. exact Hh.
  - simpl in Hnd. inversion Hnd as [|x xs Hnot Hnd']; subst.
    destruct (has_role rl roles0) eqn:Hrole.
    + unfold bind, assert.
      rewrite (Hfree host roles0 (or_introl eq_refl) Hrole). simpl.
      destruct (IH Hnd' (Py.set running host true) w)
        as (running' & Hret & Honly).
      * intros h roles Hin Hr. rewrite mem_set.
        rewrite (Hfree h roles (or_intror Hin) Hr), orb_false_r.
        apply String.eqb_neq. intros ->. apply Hnot.
        apply in_map_iff. exists (h, roles). split; [reflexivity | exact Hin].
      * exists running'. split; [exact Hret|]. intros h Hh.
        destruct (Honly h Hh) as [Hset|(roles & Hin & Hr)].
        -- rewrite mem_set in Hset. apply orb_true_iff in Hset.
           destruct Hset as [Heq|Hmem]; [|left; exact Hmem].
           apply String.eqb_eq in Heq. subst h. right. exists roles0.
           split; [left; reflexivity | exact Hrole].
        -- right. exists roles. split; [right; exact Hin | exact Hr].
    + destruct (IH Hnd' running w) as (running' & Hret & Honly).
      * intros h roles Hin Hr. exact (Hfree h roles (or_intror Hin) Hr).
      * exists running'. split; [exact Hret|]. intros h Hh.
        destruct (Honly h Hh) as [Hmem|(roles & Hin & Hr)];
          [left; exact Hmem|].
        right. exists roles. split; [right; exact Hin | exact Hr].
Qed.

Lemma check_runs_passes (ctx : context) :
  NoDup (map fst (cluster ctx)) ->
  forall runs running w,
    check_runs ctx runs running w = Ret tt w <->
    Forall (fun run => Py.startswith "client." (fst run) = true) runs /\
    NoDup (hosts_of_runs ctx runs) /\
    (forall h, In h (hosts_of_runs ctx runs) -> Py.mem running h = false).
Proof.
  intros Hnd. induction runs as [|[rl p] rest IH]; intros running w.
  - simpl. split; [|reflexivity].
    intros _. split; [constructor|]. split; [constructor|]. intros h [].
  - rewrite check_runs_cons. cbn [hosts_of_runs flat_map fst].
    fold (hosts_of_runs ctx rest). split.
    + destruct (Py.startswith "client." rl) eqn:Hclient; [|discriminate].
      destruct (claim_hosts_outcome rl (cluster ctx) running w)
        as [(running' & Hret & Hkeep & Hall) | Hraise];
        [rewrite Hret | rewrite Hraise; discriminate].
      intros Hrest. apply IH in Hrest. destruct Hrest as (Hc & Hnd' & Hfree).
      assert (Hmine : forall h, In h (only ctx rl) -> Py.mem running h = false).
      { intros h Hh. apply only_in in Hh. destruct Hh as (roles & Hin & Hr).
        destruct (Py.mem running h) eqn:Hmem; [|reflexivity].
        rewrite (claim_hosts_conflict rl (cluster ctx) h roles Hin Hr
                   running w Hmem) in Hret. discriminate. }
      split; [constructor; [exact Hclient | exact Hc]|]. split.
      * apply NoDup_app; [apply NoDup_map_filter; exact Hnd | exact Hnd'|].
        intros h Hh Hin. apply only_in in Hh. destruct Hh as (roles & Hi & Hr).
        specialize (Hfree h Hin).
        rewrite (Hall h roles Hi Hr) in Hfree. discriminate.
      * intros h Hh. apply in_app_or in Hh. destruct Hh as [Hh|Hh];
          [exact (Hmine h Hh)|].
        destruct (Py.mem running h) eqn:Hmem; [|reflexivity].
        specialize (Hfree h Hh).
        rewrite (Hkeep h Hmem) in Hfree. discriminate.
    + intros (Hc & Hnd' & Hfree).
      inversion Hc as [|x xs Hclient Hc']; subst. cbn [fst] in Hclient.
      rewrite Hclient.
      destruct (claim_hosts_free rl (cluster ctx) Hnd running w)
        as (running' & Hret & Honly).
      * intros h roles Hin Hr. apply Hfree. apply in_or_app. left.
        apply only_in. exists roles. split; assumption.
      * rewrite Hret. apply IH. split; [exact Hc'|].
        split; [exact (NoDup_app_remove_l _ _ Hnd')|].
        intros h Hh. destruct (Py.mem running' h) eqn:Hmem; [|reflexivity].
        destruct (Honly h Hmem) as [Hold|(roles & Hin & Hr)].
        -- rewrite (Hfree h (in_or_app _ _ _ (or_intror Hh))) in Hold.
           discriminate.
        -- exfalso. apply (NoDup_app_disjoint _ _ Hnd' h); [|exact Hh].
           apply only_in. exists roles. split; assumption.
Qed.

(** X16.  On a cluster whose remotes are distinct, the plan check of
    xfstests passes exactly when every run target is a client and no
    host is needed twice, by two runs or by one run listed twice; it
    never runs a command. *)
Theorem plan_check_passes_exactly_when :
  forall (ctx : context) (runs : list (role * option properties)) (w : world),
    NoDup (map fst (cluster ctx)) ->
    (check_runs ctx runs [] w = Ret tt w <->
     Forall (fun run => Py.startswith "client." (fst run) = true) runs /\
     NoDup (hosts_of_runs ctx runs)) /\
    world_of (check_runs ctx runs [] w) = Some w.
Proof.
  intros ctx runs w Hnd. split.
  - rewrite (check_runs_passes ctx Hnd runs [] w). split.
    + intros (Hc & Hn & _). split; assumption.
    + intros (Hc & Hn). split; [exact Hc|]. split; [exact Hn|].
      intros h _. reflexivity.
  - destruct (check_runs_outcome ctx runs [] w) as [H|[H|[H _]]];
      rewrite H; reflexivity.
Qed.

Lemma plan_check_passes_exactly_when_witness :
  check_runs quiet_ctx [("client.0", None); ("client.1", None)] [] demo_w0
  = Ret tt demo_w0.
Proof.
  assert (Hnd : NoDup (map fst (cluster quiet_ctx))).
  { repeat constructor; simpl; intuition discriminate. }
  apply (proj1 (plan_check_passes_exactly_when quiet_ctx
                  [("client.0", None); ("client.1", None)] demo_w0 Hnd)).
  split.
  - repeat constructor.
  - repeat constructor; simpl; intuition discriminate.
Defined.

(* ================================================================== *)
(** * The images of xfstests *)





